(** * Python_Network_Tools: the port expander, the probes and the scan engine

    A shallow embedding of the scripts of the repository:
    - [Mini_Port_Scanner_Advanced.py]: [parse_ports], [scan_port],
      [scan_ports_concurrent];
    - [Recon_tool_Network+Port_Scanner.py]: [ping_ip], [parse_ports_simple],
      [is_port_open], the host list of [discover_active_hosts];
    - [Network_IP_Scanner.py]: [ping_ip], the host list of
      [threaded_network_scan].

    Python values are modelled as follows: [int] is [Z]; [str] is [string],
    read as a sequence of code points below 256; [float] is the primitive
    binary64 [float]; [set] of ints is [gset Z]; a raised exception is the
    left injection of a sum.  The network, the clock, the thread scheduler and
    the keyboard are inputs of the model.  Console output is not modelled. *)

From Stdlib Require Import ZArith Ascii String List Floats.
From stdpp Require Import base numbers list sorting gmap strings.

Open Scope Z_scope.

(** ** Python built-ins used by the scripts *)

Module Py.

(** Exceptions the scripts raise, catch or let through. *)
Inductive exn : Type :=
| ValueError (msg : string)
    (** [raise ValueError(msg)] written in the scripts *)
| ValueError_int (literal : string)
    (** raised by [int(literal)]: invalid literal for int() with base 10 *)
| OtherException (text : string)
    (** any other instance of [Exception]; [text] is its [str()] *)
| KeyboardInterrupt.

Definition code (c : ascii) : Z := Z.of_N (N_of_ascii c).

(** [str.isspace] on one character, for code points below 256. *)
Definition is_space (c : ascii) : bool :=
  let n := code c in
  ((9 <=? n) && (n <=? 13)) || ((28 <=? n) && (n <=? 32))
  || (n =? 133) || (n =? 160).

Definition is_digit (c : ascii) : bool :=
  let n := code c in (48 <=? n) && (n <=? 57).

Definition digit_val (c : ascii) : option Z :=
  if is_digit c then Some (code c - 48) else None.

Definition ascii_eqb (a b : ascii) : bool := bool_decide (a = b).

(** [all(p(c) for c in s)] *)
Fixpoint str_all (p : ascii -> bool) (s : string) : bool :=
  match s with
  | EmptyString => true
  | String c r => p c && str_all p r
  end.

(** [c in s] for a one-character [c]. *)
Fixpoint str_in (c : ascii) (s : string) : bool :=
  match s with
  | EmptyString => false
  | String d r => ascii_eqb c d || str_in c r
  end.

(** [s.replace(old, new)] for one-character [old] and [new]. *)
Fixpoint replace (old new : ascii) (s : string) : string :=
  match s with
  | EmptyString => EmptyString
  | String c r => String (if ascii_eqb c old then new else c) (replace old new r)
  end.

(** [s.split()]: maximal runs of non-whitespace characters. [cur] is the
    run being read. *)
Fixpoint split_go (s cur : string) : list string :=
  match s with
  | EmptyString => match cur with EmptyString => [] | _ => [cur] end
  | String c r =>
      if is_space c
      then match cur with
           | EmptyString => split_go r EmptyString
           | _ => cur :: split_go r EmptyString
           end
      else split_go r (cur +:+ String c EmptyString)
  end.

Definition split (s : string) : list string := split_go s EmptyString.

(** [s.split(sep, 1)] for a one-character [sep]: cut at the first [sep]. *)
Fixpoint split1 (sep : ascii) (s : string) : list string :=
  match s with
  | EmptyString => [EmptyString]
  | String c r =>
      if ascii_eqb c sep then [EmptyString; r]
      else match split1 sep r with
           | h :: t => String c h :: t
           | [] => [String c EmptyString]
           end
  end.

Fixpoint lstrip (s : string) : string :=
  match s with
  | EmptyString => EmptyString
  | String c r => if is_space c then lstrip r else s
  end.

Fixpoint rstrip (s : string) : string :=
  match s with
  | EmptyString => EmptyString
  | String c r =>
      match rstrip r with
      | EmptyString => if is_space c then EmptyString else String c EmptyString
      | r' => String c r'
      end
  end.

Definition strip (s : string) : string := rstrip (lstrip s).

(** The digits of an [int] literal: decimal digits, single underscores
    allowed between two digits. [prev_us] tells that the previous
    character was an underscore. *)
Fixpoint int_digits (s : string) (acc : Z) (prev_us : bool) : option Z :=
  match s with
  | EmptyString => if prev_us then None else Some acc
  | String c r =>
      if ascii_eqb c "_"
      then if prev_us then None else int_digits r acc true
      else match digit_val c with
           | Some d => int_digits r (10 * acc + d) false
           | None => None
           end
  end.

(** The number of digit characters of a literal, leading zeros included
    and underscores left out. *)
Fixpoint digit_count (s : string) : Z :=
  match s with
  | EmptyString => 0
  | String c r => (if is_digit c then 1 else 0) + digit_count r
  end.

(** The default of [sys.get_int_max_str_digits()]: a decimal literal with
    more digits is refused by [int]. *)
Definition int_max_str_digits : Z := 4300.

Definition int_body (s : string) : option Z :=
  match s with
  | EmptyString => None
  | String c _ =>
      if ascii_eqb c "_" then None
      else if digit_count s >? int_max_str_digits then None
      else int_digits s 0 false
  end.

(** [int(s)] in base 10; [None] stands for the [ValueError] it raises: on
    a string that is no integer literal, and on a literal of more than
    4300 digits. *)
Definition int (s : string) : option Z :=
  match strip s with
  | EmptyString => None
  | String c r =>
      if ascii_eqb c "+" then int_body r
      else if ascii_eqb c "-" then Z.opp <$> int_body r
      else int_body (String c r)
  end.

Definition digit_char (d : Z) : ascii := ascii_of_N (Z.to_N (48 + d)).

(** The decimal digits of [n >= 0], most significant first, put before
    [acc]. *)
Fixpoint str_digits (fuel : nat) (n : Z) (acc : string) : string :=
  match fuel with
  | O => acc
  | S f =>
      let acc' := String (digit_char (n mod 10)) acc in
      if n <? 10 then acc' else str_digits f (n / 10) acc'
  end.

(** [str(n)] for an [int]. *)
Definition str (n : Z) : string :=
  if n <? 0
  then String "-" (str_digits (S (Z.to_nat (Z.log2 (- n)))) (- n) EmptyString)
  else str_digits (S (Z.to_nat (Z.log2 n))) n EmptyString.

(** [range(lo, hi)] *)
Definition range (lo hi : Z) : list Z := seqZ lo (hi - lo).

(** [sorted(s)] for a set of ints. *)
Definition sorted (s : gset Z) : list Z := merge_sort Z.le (elements s).

End Py.

(** ** Mini_Port_Scanner_Advanced.py *)

Module Advanced.

(** The body of the [try] of a range token; [None] is a [ValueError]
    raised inside it ([int], the unpacking, or the explicit [raise]). *)
Definition range_token (token : string) (ports : gset Z) : option (gset Z) :=
  match Py.split1 "-" token with
  | [s; e] =>
      start ← Py.int s;
      end_ ← Py.int e;
      let '(start, end_) :=
        if start >? end_ then (end_, start) else (start, end_) in
      if (start <? 1) || (end_ >? 65535) then None
      else Some (ports ∪ list_to_set (Py.range start (end_ + 1)))
  | _ => None
  end.

(** The body of the [try] of a single-port token. *)
Definition port_token (token : string) (ports : gset Z) : option (gset Z) :=
  p ← Py.int token;
  if (p <? 1) || (p >? 65535) then None
  else Some ({[ p ]} ∪ ports).

(** The [for token in tokens] loop, on the set [ports] it fills. *)
Fixpoint parse_tokens (tokens : list string) (ports : gset Z)
  : Py.exn + gset Z :=
  match tokens with
  | [] => inr ports
  | token :: rest =>
      if Py.str_in "-" token
      then match range_token token ports with
           | Some ports' => parse_tokens rest ports'
           | None =>
               inl (Py.ValueError ("Invalid range token: '" +:+ token +:+ "'"))
           end
      else match port_token token ports with
           | Some ports' => parse_tokens rest ports'
           | None =>
               inl (Py.ValueError ("Invalid port token: '" +:+ token +:+ "'"))
           end
  end.

Definition parse_ports (port_input : string) : Py.exn + list Z :=
  let tokens := Py.split (Py.replace "," " " port_input) in
  match parse_tokens tokens ∅ with
  | inl e => inl e
  | inr ports => inr (Py.sorted ports)
  end.

(** The ports the expander lets through. *)
Definition valid_port (p : Z) : Prop := 1 <= p <= 65535.

(** What the socket of one call of [scan_port] does: [connect_ex] returns
    an error indicator, or something inside the [try] raises an
    [Exception] whose [str()] is [text]. *)
Inductive sock_outcome : Type :=
| ConnectEx (code : Z)
| SockRaises (text : string).

(** The environment of one call of [scan_port host port timeout]: the
    socket and the clock ([time.time() - start]). *)
Record probe_env : Type := {
  sock : sock_outcome;
  elapsed : float
}.

(** Returns [(port, is_open, err, elapsed_seconds)]. *)
Definition scan_port (port : Z) (env : probe_env)
  : Z * bool * option string * float :=
  match sock env with
  | ConnectEx code =>
      if code =? 0 then (port, true, None, elapsed env)
      else (port, false, None, elapsed env)
  | SockRaises text => (port, false, Some text, elapsed env)
  end.

(** What a worker thread did with one submitted call: it ran [scan_port]
    in some environment, or the future was completed with an [Exception]
    that [scan_port] did not catch. *)
Inductive worker_outcome : Type :=
| Ran (env : probe_env)
| Escaped (text : string).

(** [fut.result()]: the returned tuple, or the exception raised again. *)
Inductive fut_result : Type :=
| Returned (r : Z * bool * option string * float)
| Raised (text : string).

Definition run_future (p : Z) (w : worker_outcome) : fut_result :=
  match w with
  | Ran env => Returned (scan_port p env)
  | Escaped text => Raised text
  end.

(** The dicts appended to [results_open] and [results_closed]. *)
Record open_entry : Type := {
  o_port : Z;
  o_elapsed : float
}.

Record closed_entry : Type := {
  c_port : Z;
  c_error : option string;
  c_elapsed : float
}.

Definition buckets : Type := list open_entry * list closed_entry.

(** The body of [for fut in as_completed(futures)], with [p = futures[fut]]. *)
Definition record_result (p : Z) (r : fut_result) (acc : buckets) : buckets :=
  let '(results_open, results_closed) := acc in
  match r with
  | Returned (port, is_open, err, elapsed) =>
      if is_open : bool
      then (results_open ++ [{| o_port := port; o_elapsed := elapsed |}],
            results_closed)
      else (results_open,
            results_closed
              ++ [{| c_port := port; c_error := err; c_elapsed := elapsed |}])
  | Raised text =>
      (results_open,
       results_closed
         ++ [{| c_port := p; c_error := Some text; c_elapsed := 0%float |}])
  end.

(** [concurrent.futures.as_completed]: yields every future once, in the
    order in which they complete.  That order is decided by the scheduler:
    [sched] names, at each step, which of the futures not yet yielded
    completes next (modulo their number); when [sched] is used up the
    others complete in submission order. *)
Fixpoint as_completed {A : Type} (sched : list nat) (pending : list A)
  : list A :=
  match sched with
  | [] => pending
  | k :: sched' =>
      let i := (k mod length pending)%nat in
      match pending !! i with
      | Some x => x :: as_completed sched' (delete i pending)
      | None => []
      end
  end.

(** The [for] loop inside the [try]. [interrupt = Some i]: the main thread
    receives [KeyboardInterrupt] when [i] futures have been handled and the
    loop is not over. *)
Fixpoint consume (completed : list (Z * fut_result)) (interrupt : option nat)
    (acc : buckets) : Py.exn + buckets :=
  match completed with
  | [] => inr acc
  | (p, r) :: rest =>
      match interrupt with
      | Some O => inl Py.KeyboardInterrupt
      | _ => consume rest (Nat.pred <$> interrupt) (record_result p r acc)
      end
  end.

(** The calls made on the thread pool. *)
Inductive executor_call : Type :=
| Submit (port : Z)
| Shutdown (wait cancel_futures : bool).

(** The inputs of one run that the script does not decide. *)
Record run_env : Type := {
  worker : nat -> worker_outcome;   (** by submission index *)
  schedule : list nat;
  interrupt : option nat
}.

Record scan_run : Type := {
  executor_calls : list executor_call;
  outcome : Py.exn + buckets
}.

(** [{executor.submit(scan_port, host, p, timeout): p for p in ports}] *)
Definition submit_all (ports : list Z) (env : run_env)
  : list (Z * fut_result) :=
  imap (fun i p => (p, run_future p (worker env i))) ports.

(** What the loop body records for one future alone. *)
Definition outcome_of_unit (u : Z * fut_result) : buckets :=
  record_result u.1 u.2 ([], []).

Definition scan_ports_concurrent (ports : list Z) (max_workers : Z)
    (env : run_env) : scan_run :=
  if max_workers <=? 0
  then {| executor_calls := [];
          outcome := inl (Py.ValueError "max_workers must be greater than 0") |}
  else
    let futures := submit_all ports env in
    match consume (as_completed (schedule env) futures) (interrupt env) ([], []) with
    | inr (results_open, results_closed) =>
        {| executor_calls := (Submit <$> ports) ++ [Shutdown true false];
           outcome := inr (results_open, results_closed) |}
    | inl e =>
        {| executor_calls :=
             (Submit <$> ports) ++ [Shutdown false true; Shutdown true false];
           outcome := inl e |}
    end.

End Advanced.

(** ** The [ipaddress] module, as far as the sweeps use it *)

Module ipaddress.

Inductive version : Type := IPv4 | IPv6.

Definition max_prefixlen (v : version) : Z :=
  match v with IPv4 => 32 | IPv6 => 128 end.

Definition ALL_ONES (v : version) : Z := 2 ^ max_prefixlen v - 1.

Record network : Type := {
  net_version : version;
  network_address : Z;
  prefixlen : Z
}.

Definition netmask (v : version) (prefix : Z) : Z :=
  Z.lxor (ALL_ONES v) (Z.shiftr (ALL_ONES v) prefix).

Definition hostmask (v : version) (prefix : Z) : Z :=
  Z.lxor (netmask v prefix) (ALL_ONES v).

(** [ip_network("address/prefix", strict=False)], from the parsed address
    and prefix length: host bits are masked off; [None] is the
    [ValueError] of an address or prefix that is out of range. *)
Definition ip_network (v : version) (address prefix : Z) : option network :=
  if (0 <=? address) && (address <=? ALL_ONES v)
     && (0 <=? prefix) && (prefix <=? max_prefixlen v)
  then Some {| net_version := v;
               network_address := Z.land address (netmask v prefix);
               prefixlen := prefix |}
  else None.

Definition broadcast_address (n : network) : Z :=
  Z.lor (network_address n) (hostmask (net_version n) (prefixlen n)).

(** [list(network.hosts())]: the addresses strictly between the network
    and the broadcast address, except that the constructor of a network
    whose prefix leaves one host bit makes [hosts] iterate over the whole
    network, and that a network with no host bit has its single address
    as host (on older interpreters it has none); an IPv6 network keeps its
    last address. *)
Definition hosts (n : network) : list Z :=
  let network := network_address n in
  let broadcast := broadcast_address n in
  if prefixlen n =? max_prefixlen (net_version n) - 1
  then Py.range network (broadcast + 1)
  else if prefixlen n =? max_prefixlen (net_version n)
  then [network]
  else match net_version n with
       | IPv4 => Py.range (network + 1) broadcast
       | IPv6 => Py.range (network + 1) (broadcast + 1)
       end.

Definition ipv4 (a b c d : Z) : Z := ((a * 256 + b) * 256 + c) * 256 + d.

End ipaddress.

(** ** Network_IP_Scanner.py *)

Module Network_IP_Scanner.

(** What [subprocess.run] of the ping command does. *)
Inductive run_outcome : Type :=
| Completed (returncode : Z)
| RunRaises (text : string).

Definition ping_ip (r : run_outcome) : bool :=
  match r with
  | Completed returncode => returncode =? 0
  | RunRaises _ => false
  end.

(** The addresses [threaded_network_scan] submits to the pool: none when
    the subnet is invalid or has no hosts. *)
Definition threaded_network_scan_units (v : ipaddress.version)
    (address prefix : Z) : list Z :=
  match ipaddress.ip_network v address prefix with
  | None => []
  | Some network => ipaddress.hosts network
  end.

End Network_IP_Scanner.

(** ** Recon_tool_Network+Port_Scanner.py *)

Module Recon_tool.

Inductive run_outcome : Type :=
| Completed (returncode : Z)
| RunRaises (text : string).

Definition ping_ip (r : run_outcome) : bool :=
  match r with
  | Completed returncode => returncode =? 0
  | RunRaises _ => false
  end.

(** The addresses [discover_active_hosts] submits to the pool. *)
Definition discover_active_hosts_units (v : ipaddress.version)
    (address prefix : Z) : list Z :=
  match ipaddress.ip_network v address prefix with
  | None => []
  | Some network => ipaddress.hosts network
  end.

Fixpoint parse_ports_simple_loop (tokens : list string) (ports : list Z)
  : Py.exn + list Z :=
  match tokens with
  | [] => inr ports
  | token :: rest =>
      match Py.int token with
      | Some p => parse_ports_simple_loop rest (ports ++ [p])
      | None => inl (Py.ValueError_int token)
      end
  end.

Definition parse_ports_simple (port_input : string) : Py.exn + list Z :=
  parse_ports_simple_loop (Py.split port_input) [].

(** What [sock.connect_ex((host, port))] does: it returns an error
    indicator, or raises (host not found and the like). *)
Inductive connect_outcome : Type :=
| ConnectCode (code : Z)
| ConnectRaises (text : string).

Inductive socket_type : Type := SOCK_STREAM | SOCK_DGRAM.

(** [net] is the network seen from a socket of the given type. *)
Definition is_port_open (proto : string) (net : socket_type -> connect_outcome)
  : Py.exn + bool :=
  let sock :=
    if bool_decide (proto = "TCP"%string) then Some SOCK_STREAM
    else if bool_decide (proto = "UDP"%string) then Some SOCK_DGRAM
    else None in
  match sock with
  | None => inl (Py.ValueError "Invalid protocol")
  | Some ty =>
      match net ty with
      | ConnectCode result => if result =? 0 then inr true else inr false
      | ConnectRaises text => inl (Py.OtherException text)
      end
  end.

End Recon_tool.

(** ** More built-ins, for the callers *)

Module PyMore.

(** [s or d] for strings: the empty string is false. *)
Definition or_else (s d : string) : string :=
  match s with
  | EmptyString => d
  | _ => s
  end.

(** [sorted(l, key=key)]: the stable sort by an integer key, written as
    an insertion sort; an element stays before the later elements of the
    same key. *)
Fixpoint insert_by {A : Type} (key : A -> Z) (x : A) (l : list A) : list A :=
  match l with
  | [] => [x]
  | y :: l' =>
      if key x <=? key y then x :: y :: l' else y :: insert_by key x l'
  end.

Fixpoint sorted_by {A : Type} (key : A -> Z) (l : list A) : list A :=
  match l with
  | [] => []
  | x :: l' => insert_by key x (sorted_by key l')
  end.

(** [d[k] = v] on a dict of string keys kept in insertion order. *)
Fixpoint dict_set {V : Type} (k : string) (v : V) (d : list (string * V))
  : list (string * V) :=
  match d with
  | [] => [(k, v)]
  | (k', v') :: d' =>
      if bool_decide (k' = k) then (k, v) :: d' else (k', v') :: dict_set k v d'
  end.

End PyMore.

(** ** Mini_Port_Scanner_Advanced.py: the callers of the engine *)

Module Advanced_cli.

Definition COMMON_SERVICES : list Z :=
  [21; 22; 23; 25; 53; 80; 110; 123; 135; 139; 143; 161; 389; 443; 445;
   465; 587; 631; 993; 995; 1433; 1521; 2049; 2375; 2380; 2483; 2484;
   3000; 3306; 3389; 4444; 5432; 5601; 6379; 6443; 8000; 8008; 8080;
   8081; 8088; 8443; 9000; 9092; 9200; 9300].

Definition WEB_PRESET : list Z := [80; 443; 8000; 8080; 8081; 8088; 8443; 8888].

(** [choice_line] and [ports_line] are what the two calls of [input]
    return; the second is read only for the custom choice. *)
Definition choose_preset_or_custom (choice_line ports_line : string)
  : Py.exn + list Z :=
  let choice := Py.strip choice_line in
  if bool_decide (choice = "1"%string) then inr (Py.range 1 1025)
  else if bool_decide (choice = "2"%string)
  then inr (Py.sorted (list_to_set WEB_PRESET))
  else if bool_decide (choice = "3"%string)
  then inr (Py.sorted (list_to_set COMMON_SERVICES))
  else Advanced.parse_ports (Py.strip ports_line).

(** The worker count [main] computes from the answer to its prompt:
    [max(1, min(1000, int(line.strip() or "200")))], and 200 when [int]
    raises [ValueError]. *)
Definition main_max_workers (line : string) : Z :=
  match Py.int (PyMore.or_else (Py.strip line) "200") with
  | Some max_workers => Z.max 1 (Z.min 1000 max_workers)
  | None => 200
  end.

Record metadata : Type := {
  host : string;
  started_at : string;
  duration_sec : float;
  timeout : float;
  workers : Z;
  scanned_ports_count : Z
}.

Section CsvExport.

(** The two renderings of a float the export uses, taken as given:
    [fmt3 x] is [f"{x:.3f}"] and [float_str x] is [f"{x}"]. *)
Variable fmt3 : float -> string.
Variable float_str : float -> string.

Definition open_row (item : Advanced.open_entry) : list string :=
  ["open"%string; Py.str (Advanced.o_port item);
   fmt3 (Advanced.o_elapsed item); EmptyString].

(** The last cell is [item.get("error") or ""]. *)
Definition closed_row (item : Advanced.closed_entry) : list string :=
  ["closed"%string; Py.str (Advanced.c_port item);
   fmt3 (Advanced.c_elapsed item);
   match Advanced.c_error item with
   | Some text => PyMore.or_else text EmptyString
   | None => EmptyString
   end].

(** The rows [export_csv] hands to [writer.writerow], in order, each cell
    as the writer renders it before quoting. *)
Definition export_csv (md : metadata) (results : Advanced.buckets)
  : list (list string) :=
  [ ["# host: " +:+ host md];
    ["# started_at: " +:+ started_at md];
    ["# duration_sec: " +:+ fmt3 (duration_sec md)];
    ["# timeout: " +:+ float_str (timeout md)];
    ["# workers: " +:+ Py.str (workers md)];
    ["# scanned_ports_count: " +:+ Py.str (scanned_ports_count md)];
    [];
    ["status"; "port"; "elapsed_seconds"; "error"]%string ]
  ++ (open_row <$> PyMore.sorted_by Advanced.o_port results.1)
  ++ (closed_row <$> PyMore.sorted_by Advanced.c_port results.2).

End CsvExport.

End Advanced_cli.

(** ** Recon_tool_Network+Port_Scanner.py: the sweep, the per-host scan
    and the glue *)

Module Recon_run.

(** What a worker thread did with one submitted [ping_ip]. *)
Inductive ping_worker : Type :=
| Pinged (r : Recon_tool.run_outcome)
| PingEscaped (text : string).

(** [future.result()]: the answer of [ping_ip], or the text of the
    exception raised again. *)
Definition ping_future (w : ping_worker) : bool + string :=
  match w with
  | Pinged r => inl (Recon_tool.ping_ip r)
  | PingEscaped text => inr text
  end.

Record sweep_env : Type := {
  ping : nat -> ping_worker;   (** by submission index *)
  schedule : list nat;
  interrupt : option nat
}.

(** [{executor.submit(ping_ip, ip): ip for ip in hosts}] *)
Definition ping_all (hosts : list Z) (env : sweep_env)
  : list (Z * (bool + string)) :=
  imap (fun i ip => (ip, ping_future (ping env i))) hosts.

(** [max(1, min(500, int(line.strip() or "100")))], and 100 when [int]
    raises [ValueError]. *)
Definition prompt_max_workers (line : string) : Z :=
  match Py.int (PyMore.or_else (Py.strip line) "100") with
  | Some max_workers => Z.max 1 (Z.min 500 max_workers)
  | None => 100
  end.

(** [scan_port(host, port, timeout)]: [connect_ex] refuses a port outside
    0..65535 with an [OverflowError], which the [except] turns into
    [False] like every other exception; [sock] is what the socket does
    otherwise. *)
Definition scan_port (port : Z) (sock : Recon_tool.connect_outcome) : bool :=
  if (port <? 0) || (port >? 65535) then false
  else match sock with
       | Recon_tool.ConnectCode result => result =? 0
       | Recon_tool.ConnectRaises _ => false
       end.

(** The loop of [scan_ports_for_host]; [net i] is what the socket of the
    [i]-th call does and [open_ports] the list being filled. *)
Fixpoint scan_ports_loop (ports : list Z) (i : nat)
    (net : nat -> Recon_tool.connect_outcome) (open_ports : list Z) : list Z :=
  match ports with
  | [] => open_ports
  | port :: rest =>
      let is_open := scan_port port (net i) in
      scan_ports_loop rest (S i) net
        (if is_open then open_ports ++ [port] else open_ports)
  end.

Definition scan_ports_for_host (ports : list Z)
    (net : nat -> Recon_tool.connect_outcome) : list Z :=
  scan_ports_loop ports 0 net [].

Section WithStr.

(** [str(ip)] on an address object, taken as given. *)
Variable ip_str : Z -> string.

(** The loop over [as_completed]; [None] is [KeyboardInterrupt]. *)
Fixpoint collect (completed : list (Z * (bool + string)))
    (interrupt : option nat) (active_hosts : list string)
  : option (list string) :=
  match completed with
  | [] => Some active_hosts
  | (ip, r) :: rest =>
      match interrupt with
      | Some O => None
      | _ =>
          collect rest (Nat.pred <$> interrupt)
            (match r with
             | inl true => active_hosts ++ [ip_str ip]
             | inl false => active_hosts
             | inr _ => active_hosts
             end)
      end
  end.

(** The subnet is given by its parsed address and prefix length, as for
    [ip_network]. *)
Definition discover_active_hosts (v : ipaddress.version) (address prefix : Z)
    (max_workers : Z) (env : sweep_env) : Py.exn + list string :=
  match ipaddress.ip_network v address prefix with
  | None => inr []
  | Some network =>
      match ipaddress.hosts network with
      | [] => inr []
      | hosts =>
          if max_workers <=? 0
          then inl (Py.ValueError "max_workers must be greater than 0")
          else
            match collect (Advanced.as_completed (schedule env) (ping_all hosts env))
                    (interrupt env) [] with
            | Some active_hosts => inr active_hosts
            | None => inr []
            end
      end
  end.

(** The per-host scans of [network_and_port_scanner]; [net h] is the
    network during the scan of the [h]-th host and [summary] the dict
    being filled. *)
Fixpoint scan_hosts (active_hosts : list string) (h : nat) (ports : list Z)
    (net : nat -> nat -> Recon_tool.connect_outcome)
    (summary : list (string * list Z)) : list (string * list Z) :=
  match active_hosts with
  | [] => summary
  | host :: rest =>
      let open_ports := scan_ports_for_host ports (net h) in
      scan_hosts rest (S h) ports net (PyMore.dict_set host open_ports summary)
  end.

(** What [network_and_port_scanner] ends with. *)
Inductive glue_outcome : Type :=
| NoActiveHosts
| InvalidPortList
| Summary (summary : list (string * list Z)).

Definition network_and_port_scanner (v : ipaddress.version)
    (address prefix : Z) (workers_line : string) (env : sweep_env)
    (ports_line : string) (net : nat -> nat -> Recon_tool.connect_outcome)
  : Py.exn + glue_outcome :=
  let max_workers := prompt_max_workers workers_line in
  match discover_active_hosts v address prefix max_workers env with
  | inl e => inl e
  | inr [] => inr NoActiveHosts
  | inr active_hosts =>
      match Recon_tool.parse_ports_simple (Py.strip ports_line) with
      | inl _ => inr InvalidPortList
      | inr ports => inr (Summary (scan_hosts active_hosts 0 ports net []))
      end
  end.

End WithStr.

End Recon_run.

(** ** Network_IP_Scanner.py: the sweep *)

Module Network_run.

Inductive ping_worker : Type :=
| Pinged (r : Network_IP_Scanner.run_outcome)
| PingEscaped (text : string).

Definition ping_future (w : ping_worker) : bool + string :=
  match w with
  | Pinged r => inl (Network_IP_Scanner.ping_ip r)
  | PingEscaped text => inr text
  end.

Record sweep_env : Type := {
  ping : nat -> ping_worker;
  schedule : list nat;
  interrupt : option nat
}.

Definition ping_all (hosts : list Z) (env : sweep_env)
  : list (Z * (bool + string)) :=
  imap (fun i ip => (ip, ping_future (ping env i))) hosts.

Definition prompt_max_workers (line : string) : Z :=
  match Py.int (PyMore.or_else (Py.strip line) "100") with
  | Some max_workers => Z.max 1 (Z.min 500 max_workers)
  | None => 100
  end.

Section WithStr.

Variable ip_str : Z -> string.

(** The loop over [as_completed]; on [KeyboardInterrupt] the function
    goes on to its summary with the hosts found so far. *)
Fixpoint collect (completed : list (Z * (bool + string)))
    (interrupt : option nat) (active_hosts : list string) : list string :=
  match completed with
  | [] => active_hosts
  | (ip, r) :: rest =>
      match interrupt with
      | Some O => active_hosts
      | _ =>
          collect rest (Nat.pred <$> interrupt)
            (match r with
             | inl true => active_hosts ++ [ip_str ip]
             | inl false => active_hosts
             | inr _ => active_hosts
             end)
      end
  end.

(** The active hosts of the final summary; [None] when the function
    returns before it (invalid subnet, no hosts). The pool is made with
    [prompt_max_workers] of the answer to the prompt, which is at least 1,
    so that making it does not raise. *)
Definition threaded_network_scan (v : ipaddress.version) (address prefix : Z)
    (env : sweep_env) : option (list string) :=
  match ipaddress.ip_network v address prefix with
  | None => None
  | Some network =>
      match ipaddress.hosts network with
      | [] => None
      | hosts =>
          Some (collect (Advanced.as_completed (schedule env)
                           (ping_all hosts env))
                  (interrupt env) [])
      end
  end.

End WithStr.

End Network_run.

(** ** TCP n UDP port scanner.py: the script around [is_port_open] *)

Module Tcp_udp_script.

#[global] Instance connect_outcome_eq_dec : EqDecision Recon_tool.connect_outcome.
Proof. solve_decision. Defined.

(** The [for port in range(20, 443)] loop; [net port] is the network seen
    by the socket made for [port], [printed] the ports announced as open
    so far. The second component is the exception that ends the script,
    if any. *)
Fixpoint scan_loop (ports : list Z) (protocol : string)
    (net : Z -> Recon_tool.socket_type -> Recon_tool.connect_outcome)
    (printed : list Z) : list Z * option Py.exn :=
  match ports with
  | [] => (printed, None)
  | port :: rest =>
      match Recon_tool.is_port_open protocol (net port) with
      | inl e => (printed, Some e)
      | inr true => scan_loop rest protocol net (printed ++ [port])
      | inr false => scan_loop rest protocol net printed
      end
  end.

Definition script (protocol : string)
    (net : Z -> Recon_tool.socket_type -> Recon_tool.connect_outcome)
  : list Z * option Py.exn :=
  scan_loop (Py.range 20 443) protocol net [].

End Tcp_udp_script.

(** ** Sample inputs *)

Module Samples.
Import Advanced.

(** Ports 22 and 80 answer, the socket of 23 raises, the future of 25 is
    completed with an exception, the others refuse. *)
Definition lab_worker (i : nat) : worker_outcome :=
  match i with
  | 0%nat => Ran {| sock := ConnectEx 0; elapsed := 0.25%float |}
  | 1%nat => Ran {| sock := SockRaises "timed out"; elapsed := 1%float |}
  | 2%nat => Escaped "unexpected fault in worker"
  | 3%nat => Ran {| sock := ConnectEx 0; elapsed := 0.5%float |}
  | _ => Ran {| sock := ConnectEx 10061; elapsed := 0.125%float |}
  end.

Definition lab_ports : list Z := [22; 23; 25; 80; 443].

Definition lab_run : run_env :=
  {| worker := lab_worker; schedule := [3; 0; 2]%nat; interrupt := None |}.

(** The same run, interrupted when two futures have been handled. *)
Definition lab_run_interrupted : run_env :=
  {| worker := lab_worker; schedule := [3; 0; 2]%nat; interrupt := Some 2%nat |}.

(** Ten ports, every probe sleeping through its five seconds, three
    workers: the interrupt comes before any future has completed. *)
Definition sleepy_ports : list Z := Py.range 1 11.

Definition sleepy_run : run_env :=
  {| worker := fun _ => Ran {| sock := ConnectEx 10060; elapsed := 5%float |};
     schedule := [];
     interrupt := Some 0%nat |}.

(** A host name that does not resolve, seen from any socket. *)
Definition unresolvable (ty : Recon_tool.socket_type)
  : Recon_tool.connect_outcome :=
  Recon_tool.ConnectRaises "[Errno -2] Name or service not known".

Definition net_192_168_1_0 : Z := ipaddress.ipv4 192 168 1 0.

End Samples.

Module Samples_sweep.

(** 10.0.0.4/30: hosts 10.0.0.5 and 10.0.0.6; the first answers, the
    ping of the second cannot be started. *)
Definition lan_address : Z := ipaddress.ipv4 10 0 0 4.

Definition recon_sweep : Recon_run.sweep_env :=
  {| Recon_run.ping := fun i =>
       match i with
       | 0%nat => Recon_run.Pinged (Recon_tool.Completed 0)
       | _ => Recon_run.Pinged (Recon_tool.RunRaises "ping not found")
       end;
     Recon_run.schedule := [1%nat];
     Recon_run.interrupt := None |}.

(** The same sweep, interrupted after the first completed ping. *)
Definition recon_sweep_interrupted : Recon_run.sweep_env :=
  {| Recon_run.ping := fun _ => Recon_run.Pinged (Recon_tool.Completed 0);
     Recon_run.schedule := [];
     Recon_run.interrupt := Some 1%nat |}.

Definition network_sweep_interrupted : Network_run.sweep_env :=
  {| Network_run.ping := fun _ =>
       Network_run.Pinged (Network_IP_Scanner.Completed 0);
     Network_run.schedule := [];
     Network_run.interrupt := Some 1%nat |}.

(** Dotted-quad form of an IPv4 address. *)
Definition dotted (a : Z) : string :=
  Py.str (a / 16777216) +:+ "." +:+ Py.str (a / 65536 mod 256) +:+ "."
    +:+ Py.str (a / 256 mod 256) +:+ "." +:+ Py.str (a mod 256).

(** Every connection asked of the network succeeds. *)
Definition all_open (h i : nat) : Recon_tool.connect_outcome :=
  Recon_tool.ConnectCode 0.

(** Every port from 20 to 442 refuses, except 22 and 80; the name
    resolution fails for the socket of port 100. *)
Definition flaky_net (port : Z) (ty : Recon_tool.socket_type)
  : Recon_tool.connect_outcome :=
  if bool_decide (port = 22 \/ port = 80) then Recon_tool.ConnectCode 0
  else if bool_decide (port = 100)
  then Recon_tool.ConnectRaises "[Errno -3] Temporary failure in name resolution"
  else Recon_tool.ConnectCode 111.

End Samples_sweep.

(** ** The thread pool, as far as [shutdown] goes *)

Module Pool.

(** Where a submitted call stands: still in the work queue, running in a
    worker thread, finished, or cancelled before it was started. *)
Inductive call_state : Type := Queued | Running | Finished | Cancelled.

(** [executor.shutdown(wait, cancel_futures)] seen from one call. With
    [cancel_futures] the work queue is emptied and the calls taken from
    it are cancelled: they are never started. With [wait] the method
    returns when the worker threads have ended, that is when the running
    calls, and the calls left in the queue, have finished. *)
Definition shutdown (wait cancel_futures : bool) (st : call_state)
  : call_state :=
  match st with
  | Queued =>
      if cancel_futures then Cancelled
      else if wait then Finished else Queued
  | Running => if wait then Finished else Running
  | Finished => Finished
  | Cancelled => Cancelled
  end.

(** One call on the pool, on the states of the calls submitted so far. *)
Definition perform (pool : list call_state) (c : Advanced.executor_call)
  : list call_state :=
  match c with
  | Advanced.Submit _ => pool ++ [Queued]
  | Advanced.Shutdown wait cancel_futures =>
      shutdown wait cancel_futures <$> pool
  end.

End Pool.

Module Samples_more.

(** The run of [Samples.lab_run] in another order: the future of port 25,
    which raises, and the probe of port 23, whose socket raises, complete
    first and are handled; then the interrupt comes. *)
Definition lab_run_fault_then_interrupt : Advanced.run_env :=
  {| Advanced.worker := Samples.lab_worker;
     Advanced.schedule := [2; 1]%nat;
     Advanced.interrupt := Some 2%nat |}.

(** The pool of [Samples.sleepy_run] when the interrupt comes: three calls
    running in the three workers, seven still queued. *)
Definition sleepy_pool : list Pool.call_state :=
  replicate 3 Pool.Running ++ replicate 7 Pool.Queued.

(** A literal of 4301 digits, and one of 4300. *)
Definition digits_4301 : string := string_of_list_ascii (replicate 4301 "9"%char).
Definition digits_4300 : string := string_of_list_ascii (replicate 4300 "9"%char).

(** 2001:db8::/126 *)
Definition net_2001_db8 : Z := 536939960 * 2 ^ 96.

End Samples_more.

(** * Properties *)


(** ** Facts on the built-ins *)

Section PyFacts.
Import Py.

Lemma str_app_cons c (s t : string) : String c s +:+ t = String c (s +:+ t).
Proof. reflexivity. Qed.

Lemma str_app_nil_l (t : string) : EmptyString +:+ t = t.
Proof. reflexivity. Qed.

Lemma str_app_assoc (s t u : string) : (s +:+ t) +:+ u = s +:+ (t +:+ u).
Proof.
  induction s as [|c s IH]; [done|]. by rewrite !str_app_cons, IH.
Qed.

Lemma str_all_app p s t :
  str_all p (s +:+ t) = str_all p s && str_all p t.
Proof.
  induction s as [|c s IH]; [done|].
  rewrite str_app_cons. simpl. rewrite IH. by destruct (p c).
Qed.

Lemma str_all_impl (p q : ascii -> bool) s :
  (forall c, p c = true -> q c = true) ->
  str_all p s = true -> str_all q s = true.
Proof.
  intros Hpq. induction s as [|c s IH]; simpl; [done|].
  rewrite !andb_true_iff. intros [Hc Hs]. auto.
Qed.

(** What is used of a decimal digit character. *)
Lemma digit_char_spec d :
  0 <= d < 10 ->
  digit_val (digit_char d) = Some d
  /\ is_digit (digit_char d) = true.
Proof.
  intros Hd.
  assert (d = 0 \/ d = 1 \/ d = 2 \/ d = 3 \/ d = 4 \/ d = 5 \/ d = 6
          \/ d = 7 \/ d = 8 \/ d = 9) as Hcases by lia.
  repeat (destruct Hcases as [->|Hcases]); try subst d; by vm_compute.
Qed.

Lemma is_digit_not_special c :
  is_digit c = true ->
  is_space c = false /\ ascii_eqb c "_" = false /\ ascii_eqb c "-" = false
  /\ ascii_eqb c "+" = false /\ ascii_eqb c "," = false.
Proof.
  destruct c as [[] [] [] [] [] [] [] []]; vm_compute; intros; by repeat split.
Qed.

Lemma str_digits_app f n acc :
  str_digits f n acc = str_digits f n EmptyString +:+ acc.
Proof.
  revert n acc. induction f as [|f IH]; intros n acc; simpl; [done|].
  destruct (n <? 10); [done|].
  rewrite (IH _ (String _ acc)), (IH _ (String _ EmptyString)).
  by rewrite str_app_assoc.
Qed.

Lemma str_digits_nonempty f n :
  str_digits (S f) n EmptyString <> EmptyString.
Proof.
  simpl. destruct (n <? 10); [done|].
  rewrite str_digits_app.
  destruct (str_digits f _ _); by rewrite ?str_app_cons.
Qed.

Lemma str_digits_all_digit f n acc :
  0 <= n ->
  str_all is_digit acc = true ->
  str_all is_digit (str_digits f n acc) = true.
Proof.
  revert n acc. induction f as [|f IH]; intros n acc Hn Hacc; simpl; [done|].
  assert (is_digit (digit_char (n mod 10)) = true) as Hd.
  { apply digit_char_spec. apply Z.mod_pos_bound. lia. }
  destruct (n <? 10).
  - simpl. by rewrite Hd, Hacc.
  - apply IH; [apply Z.div_pos; lia|]. simpl. by rewrite Hd, Hacc.
Qed.

(** Reading back the digits written by [str_digits]. *)
Lemma int_digits_str_digits f n s :
  0 <= n < 2 ^ Z.of_nat f ->
  exists k, forall acc,
    int_digits (str_digits f n s) acc false = int_digits s (acc * k + n) false.
Proof.
  revert n s. induction f as [|f IH]; intros n s Hn.
  - exists 1. intros acc. simpl. f_equal. simpl in Hn. lia.
  - assert (0 <= n mod 10 < 10) as Hmod by (apply Z.mod_pos_bound; lia).
    destruct (digit_char_spec _ Hmod) as [Hval Hdig].
    destruct (is_digit_not_special _ Hdig) as (_ & Hus & _).
    simpl. destruct (Z.ltb_spec n 10) as [Hlt|Hge].
    + exists 10. intros acc. simpl. rewrite Hus, Hval.
      f_equal. rewrite Z.mod_small by lia. lia.
    + destruct (IH (n / 10) (String (digit_char (n mod 10)) s)) as [k Hk].
      { split; [apply Z.div_pos; lia|].
        apply Z.div_lt_upper_bound; [lia|].
        rewrite Nat2Z.inj_succ, Z.pow_succ_r in Hn by lia. lia. }
      exists (10 * k). intros acc. rewrite Hk. simpl. rewrite Hus, Hval.
      f_equal. pose proof (Z.div_mod n 10). lia.
Qed.

Lemma lstrip_no_space s :
  str_all (fun c => negb (is_space c)) s = true -> lstrip s = s.
Proof. destruct s as [|c s]; simpl; [done|]. by destruct (is_space c). Qed.

Lemma rstrip_no_space s :
  str_all (fun c => negb (is_space c)) s = true -> rstrip s = s.
Proof.
  induction s as [|c s IH]; simpl; [done|].
  rewrite andb_true_iff. intros [Hc Hs]. rewrite (IH Hs).
  destruct s; [|done]. by destruct (is_space c).
Qed.

Lemma digits_no_space s :
  str_all is_digit s = true ->
  str_all (fun c => negb (is_space c)) s = true.
Proof.
  apply str_all_impl. intros c Hc.
  by destruct (is_digit_not_special c Hc) as (-> & _).
Qed.

(** [int] on a non-empty string of digits reads the digits. *)
Lemma digit_count_nonneg s : 0 <= digit_count s.
Proof.
  induction s as [|c s IH]; simpl; [done|]. destruct (is_digit c); lia.
Qed.

Lemma digit_count_app s t : digit_count (s +:+ t) = digit_count s + digit_count t.
Proof.
  induction s as [|c s IH]; [done|].
  rewrite str_app_cons. simpl. rewrite IH. lia.
Qed.

Lemma digit_count_str_digits f n acc :
  digit_count (str_digits f n acc) <= Z.of_nat f + digit_count acc.
Proof.
  revert n acc. induction f as [|f IH]; intros n acc; [simpl; lia|].
  cbn [str_digits]. destruct (n <? 10).
  - simpl. destruct (is_digit _); lia.
  - etrans; [apply IH|]. simpl. destruct (is_digit _); lia.
Qed.

(** [int] on a non-empty string of at most 4300 digits reads the
    digits. *)
Lemma int_of_digits s :
  s <> EmptyString -> str_all is_digit s = true ->
  digit_count s <= int_max_str_digits ->
  int s = int_digits s 0 false.
Proof.
  intros Hne Hs Hcount. unfold int, strip.
  rewrite lstrip_no_space, rstrip_no_space by by apply digits_no_space.
  destruct s as [|c s]; [done|].
  pose proof Hs as Hs'. simpl in Hs'.
  apply andb_true_iff in Hs' as [Hc _].
  destruct (is_digit_not_special c Hc) as (_ & Hus & Hminus & Hplus & _).
  rewrite Hplus, Hminus. unfold int_body. rewrite Hus.
  by destruct (Z.gtb_spec (digit_count (String c s)) int_max_str_digits);
    [lia|].
Qed.

Lemma str_nonneg n :
  0 <= n -> str n = str_digits (S (Z.to_nat (Z.log2 n))) n EmptyString.
Proof. intros Hn. unfold str. by destruct (Z.ltb_spec n 0); [lia|]. Qed.

Lemma str_all_digit n : 0 <= n -> str_all is_digit (str n) = true.
Proof. intros Hn. rewrite str_nonneg by done. by apply str_digits_all_digit. Qed.

Lemma str_nonempty n : 0 <= n -> str n <> EmptyString.
Proof. intros Hn. rewrite str_nonneg by done. apply str_digits_nonempty. Qed.

Lemma digit_count_str n : 0 <= n -> digit_count (str n) <= 1 + Z.log2 n.
Proof.
  intros Hn. rewrite str_nonneg by done.
  etrans; [apply digit_count_str_digits|]. simpl digit_count.
  rewrite Nat2Z.inj_succ, Z2Nat.id by apply Z.log2_nonneg. lia.
Qed.

(** [int(str(n)) == n] for a natural number [n] below [2 ^ 4299], whose
    decimal form stays within the digit limit. *)
Lemma int_str n : 0 <= n -> Z.log2 n < 4299 -> int (str n) = Some n.
Proof.
  intros Hn Hlog.
  rewrite int_of_digits; auto using str_nonempty, str_all_digit.
  2:{ pose proof (digit_count_str n Hn). unfold int_max_str_digits. lia. }
  rewrite str_nonneg by done.
  destruct (int_digits_str_digits (S (Z.to_nat (Z.log2 n))) n EmptyString)
    as [k Hk].
  { split; [done|].
    destruct (Z.eq_dec n 0) as [->|Hne]; [done|].
    rewrite Nat2Z.inj_succ, Z2Nat.id by apply Z.log2_nonneg.
    apply Z.log2_spec. lia. }
  rewrite Hk. cbn [int_digits]. f_equal; lia.
Qed.

(** A port number is far below the digit limit. *)
Lemma int_str_port n : 0 <= n <= 65535 -> int (str n) = Some n.
Proof.
  intros Hn. apply int_str; [lia|].
  destruct (Z.eq_dec n 0) as [->|Hne]; [done|].
  assert (Z.log2 n < 16); [|lia].
  apply Z.log2_lt_pow2; lia.
Qed.

(** What [int] reads has at most 4300 digits. *)
Lemma is_space_not_digit c : is_space c = true -> is_digit c = false.
Proof. destruct c as [[] [] [] [] [] [] [] []]; by vm_compute. Qed.

Lemma digit_count_lstrip s : digit_count (lstrip s) = digit_count s.
Proof.
  induction s as [|c s IH]; simpl; [done|].
  destruct (is_space c) eqn:Hc; [|done].
  by rewrite (is_space_not_digit c Hc), IH.
Qed.

Lemma digit_count_rstrip s : digit_count (rstrip s) = digit_count s.
Proof.
  induction s as [|c s IH]; simpl; [done|].
  destruct (rstrip s) as [|d r] eqn:Hr.
  - destruct (is_space c) eqn:Hc; simpl; rewrite <- IH; simpl; [|lia].
    by rewrite (is_space_not_digit c Hc).
  - rewrite <- IH. done.
Qed.

Lemma int_body_digit_limit s v :
  int_body s = Some v -> digit_count s <= int_max_str_digits.
Proof.
  unfold int_body. destruct s as [|c s]; [done|].
  destruct (ascii_eqb c "_"); [done|].
  by destruct (Z.gtb_spec (digit_count (String c s)) int_max_str_digits);
    [|lia].
Qed.

Lemma int_digit_limit s v :
  int s = Some v -> digit_count s <= int_max_str_digits.
Proof.
  unfold int, strip.
  rewrite <- (digit_count_lstrip s), <- (digit_count_rstrip (lstrip s)).
  destruct (rstrip (lstrip s)) as [|c r]; [done|].
  destruct (ascii_eqb c "+") eqn:Hplus.
  { apply bool_decide_eq_true in Hplus as ->.
    intros Hr%int_body_digit_limit. by simpl. }
  destruct (ascii_eqb c "-") eqn:Hminus.
  { apply bool_decide_eq_true in Hminus as ->.
    destruct (int_body r) as [w|] eqn:Hr; [|done].
    intros _. apply int_body_digit_limit in Hr. by simpl. }
  apply int_body_digit_limit.
Qed.

(** A literal of more than 4300 digits is refused. *)
Lemma int_too_long s : int_max_str_digits < digit_count s -> int s = None.
Proof.
  intros Hlong. destruct (int s) as [v|] eqn:Hs; [|done].
  apply int_digit_limit in Hs. lia.
Qed.

Lemma digit_count_strip s : digit_count (strip s) = digit_count s.
Proof. unfold strip. by rewrite digit_count_rstrip, digit_count_lstrip. Qed.

(** An answer of more than 4300 digits is refused also after [strip]. *)
Lemma int_strip_too_long s :
  int_max_str_digits < digit_count s -> int (strip s) = None.
Proof. intros Hlong. apply int_too_long. by rewrite digit_count_strip. Qed.

End PyFacts.

(** ** Facts on the port expander *)

Section ExpanderFacts.
Import Py Advanced.

Lemma ascii_eqb_sym a b : ascii_eqb a b = ascii_eqb b a.
Proof. unfold ascii_eqb. apply bool_decide_ext. split; congruence. Qed.

Lemma str_app_nil_r (s : string) : s +:+ EmptyString = s.
Proof. induction s as [|c s IH]; [done|]. by rewrite str_app_cons, IH. Qed.

Lemma str_in_app c s t : str_in c (s +:+ t) = str_in c s || str_in c t.
Proof.
  induction s as [|d s IH]; [done|].
  rewrite str_app_cons. simpl. rewrite IH. by destruct (ascii_eqb c d).
Qed.

Lemma replace_absent old new s :
  str_in old s = false -> replace old new s = s.
Proof.
  induction s as [|c s IH]; simpl; [done|].
  rewrite orb_false_iff, (ascii_eqb_sym old c). intros [-> Hs]. by rewrite IH.
Qed.

(** A string without whitespace is one token. *)
Lemma split_go_no_space s cur :
  str_all (fun c => negb (is_space c)) s = true ->
  split_go s cur = match cur +:+ s with EmptyString => [] | t => [t] end.
Proof.
  revert cur. induction s as [|c s IH]; intros cur; simpl.
  - intros _. rewrite str_app_nil_r. by destruct cur.
  - rewrite andb_true_iff, negb_true_iff. intros [-> Hs].
    rewrite IH by done. by rewrite str_app_assoc, str_app_cons, str_app_nil_l.
Qed.

Lemma split_one_token t :
  t <> EmptyString ->
  str_all (fun c => negb (is_space c)) t = true ->
  split t = [t].
Proof.
  intros Hne Ht. unfold split. rewrite split_go_no_space by done.
  rewrite str_app_nil_l. by destruct t.
Qed.

Lemma split1_first sep s t :
  str_in sep s = false -> split1 sep (s +:+ String sep t) = [s; t].
Proof.
  induction s as [|c s IH].
  - intros _. rewrite str_app_nil_l. simpl.
    unfold ascii_eqb. by rewrite bool_decide_eq_true_2.
  - simpl. rewrite orb_false_iff, (ascii_eqb_sym sep c). intros [Hc Hs].
    rewrite ?str_app_cons. simpl. by rewrite Hc, IH.
Qed.

Lemma digits_no_char s c :
  is_digit c = false -> str_all is_digit s = true -> str_in c s = false.
Proof.
  intros Hc. induction s as [|d s IH]; simpl; [done|].
  rewrite andb_true_iff. intros [Hd Hs]. rewrite IH, orb_false_r by done.
  unfold ascii_eqb. apply bool_decide_eq_false. intros ->. congruence.
Qed.

(** The token [a-b] written with the decimal forms of [a] and [b]. *)
Lemma range_token_chars a b :
  0 <= a -> 0 <= b ->
  let t := str a +:+ "-" +:+ str b in
  t <> EmptyString
  /\ str_all (fun c => negb (is_space c)) t = true
  /\ str_in "," t = false
  /\ str_in "-" t = true
  /\ split1 "-" t = [str a; str b].
Proof.
  intros Ha Hb t. subst t.
  pose proof (str_all_digit a Ha) as Hda.
  pose proof (str_all_digit b Hb) as Hdb.
  rewrite !str_app_cons, !str_app_nil_l.
  repeat split.
  - pose proof (str_nonempty a Ha). destruct (str a); by rewrite ?str_app_cons.
  - rewrite str_all_app. simpl.
    by rewrite !digits_no_space.
  - rewrite str_in_app. simpl.
    by rewrite !(digits_no_char _ ",").
  - rewrite str_in_app. simpl. by rewrite orb_true_r.
  - apply split1_first. by apply digits_no_char.
Qed.

Lemma Sorted_lt_seqZ m n : Sorted Z.lt (seqZ m n).
Proof.
  destruct (Z.le_gt_cases n 0) as [Hn|Hn]; [by rewrite seqZ_nil|].
  rewrite <- (Z2Nat.id n) by lia.
  generalize (Z.to_nat n) as k. clear n Hn. intros k. revert m.
  induction k as [|k IH]; intros m; [by rewrite seqZ_nil|].
  rewrite seqZ_cons by lia. constructor.
  - replace (Z.pred (Z.of_nat (S k))) with (Z.of_nat k) by lia. apply IH.
  - destruct k as [|k]; [by rewrite seqZ_nil by lia|].
    rewrite seqZ_cons by lia. constructor. lia.
Qed.

Lemma Sorted_lt_le (l : list Z) : Sorted Z.lt l -> Sorted Z.le l.
Proof.
  induction 1 as [|x l Hl IH Hhd]; constructor; [done|].
  destruct Hhd; constructor. lia.
Qed.

(** [sorted(set(l))] is [l] when [l] is strictly ascending. *)
Lemma sorted_list_to_set (l : list Z) :
  Sorted Z.lt l -> sorted (list_to_set l) = l.
Proof.
  intros Hl. unfold sorted.
  assert (NoDup l) as Hnd.
  { apply Sorted_StronglySorted in Hl; [|intros x y z; lia].
    induction Hl as [|x l Hl IH Hx]; constructor; [|done].
    intros Hin. rewrite Forall_forall in Hx. specialize (Hx _ Hin). lia. }
  apply (Sorted_unique Z.le).
  - apply Sorted_merge_sort. intros x y. lia.
  - by apply Sorted_lt_le.
  - rewrite merge_sort_Permutation. by apply elements_list_to_set.
Qed.

(** What [parse_ports] returns on one range token, in either order of the
    endpoints. *)
Lemma parse_ports_one_range a b :
  1 <= Z.min a b -> Z.max a b <= 65535 ->
  parse_ports (str a +:+ "-" +:+ str b)
  = inr (range (Z.min a b) (Z.max a b + 1)).
Proof.
  intros Hmin Hmax.
  destruct (range_token_chars a b) as (Hne & Hsp & Hcomma & Hdash & Hsplit);
    [lia..|].
  unfold parse_ports.
  rewrite replace_absent by done. rewrite split_one_token by done.
  cbn [parse_tokens]. rewrite Hdash.
  unfold range_token. rewrite Hsplit.
  rewrite !int_str_port by lia. cbn [mbind option_bind].
  destruct (Z.gtb_spec a b) as [Hgt|Hle].
  - rewrite Z.min_r, Z.max_l in * by lia.
    destruct (Z.ltb_spec b 1); [lia|]. destruct (Z.gtb_spec a 65535); [lia|].
    cbn [orb]. rewrite (left_id_L ∅ (∪)).
    f_equal. apply sorted_list_to_set, Sorted_lt_seqZ.
  - rewrite Z.min_l, Z.max_r in * by lia.
    destruct (Z.ltb_spec a 1); [lia|]. destruct (Z.gtb_spec b 65535); [lia|].
    cbn [orb]. rewrite (left_id_L ∅ (∪)).
    f_equal. apply sorted_list_to_set, Sorted_lt_seqZ.
Qed.

Lemma range_token_None_malformed token s e ports :
  split1 "-" token = [s; e] ->
  int s = None \/ int e = None ->
  range_token token ports = None.
Proof.
  intros Hsplit Hbad. unfold range_token. rewrite Hsplit.
  destruct (int s) as [x|]; [|done].
  destruct Hbad as [Hs|He]; [done|]. by rewrite He.
Qed.

Lemma range_token_None_out_of_range token s e x y ports :
  split1 "-" token = [s; e] ->
  int s = Some x -> int e = Some y ->
  Z.min x y < 1 \/ 65535 < Z.max x y ->
  range_token token ports = None.
Proof.
  intros Hsplit Hs He Hbad. unfold range_token. rewrite Hsplit, Hs, He.
  cbn [mbind option_bind].
  destruct (Z.gtb_spec x y);
    [destruct (Z.ltb_spec y 1), (Z.gtb_spec x 65535)
    |destruct (Z.ltb_spec x 1), (Z.gtb_spec y 65535)]; try done; lia.
Qed.

Lemma port_token_None token ports :
  int token = None
  \/ (exists p, int token = Some p /\ (p < 1 \/ 65535 < p)) ->
  port_token token ports = None.
Proof.
  unfold port_token. intros [->|(p & -> & Hp)]; [done|].
  cbn [mbind option_bind].
  destruct (Z.ltb_spec p 1), (Z.gtb_spec p 65535); try done; lia.
Qed.

(** One token whose [try] body raises makes the whole loop raise,
    wherever the token stands and whatever was read before it. *)
Lemma parse_tokens_rejects tokens token ports :
  token ∈ tokens ->
  (if str_in "-" token
   then forall ps, range_token token ps = None
   else forall ps, port_token token ps = None) ->
  exists msg, parse_tokens tokens ports = inl (ValueError msg).
Proof.
  intros Hin Hbad. revert ports.
  induction tokens as [|t tokens IH]; intros ports; [by inversion Hin|].
  cbn [parse_tokens].
  destruct (decide (t = token)) as [->|Hne].
  - destruct (str_in "-" token); rewrite Hbad; eauto.
  - assert (token ∈ tokens) as Hin' by (inversion Hin; by subst).
    destruct (str_in "-" t).
    + destruct (range_token t ports); eauto.
    + destruct (port_token t ports); eauto.
Qed.

Lemma range_token_valid token ports ports' :
  range_token token ports = Some ports' ->
  set_Forall valid_port ports -> set_Forall valid_port ports'.
Proof.
  unfold range_token.
  destruct (split1 "-" token) as [|s [|e [|]]]; try done.
  destruct (int s) as [x|]; [|done]. destruct (int e) as [y|]; [|done].
  cbn [mbind option_bind]. intros Heq Hports.
  destruct (x >? y);
    [destruct (Z.ltb_spec y 1), (Z.gtb_spec x 65535)
    |destruct (Z.ltb_spec x 1), (Z.gtb_spec y 65535)]; try done;
    injection Heq as <-; intros p [Hp|Hp]%elem_of_union; auto;
    apply elem_of_list_to_set, elem_of_seqZ in Hp; unfold valid_port; lia.
Qed.

Lemma port_token_valid token ports ports' :
  port_token token ports = Some ports' ->
  set_Forall valid_port ports -> set_Forall valid_port ports'.
Proof.
  unfold port_token. destruct (int token) as [p|]; [|done].
  cbn [mbind option_bind].
  destruct (Z.ltb_spec p 1), (Z.gtb_spec p 65535); try done.
  intros [= <-] Hports q [Hq|Hq]%elem_of_union; auto.
  apply elem_of_singleton in Hq as ->. unfold valid_port. lia.
Qed.

Lemma parse_tokens_valid tokens ports ports' :
  parse_tokens tokens ports = inr ports' ->
  set_Forall valid_port ports -> set_Forall valid_port ports'.
Proof.
  revert ports. induction tokens as [|t tokens IH]; intros ports; cbn [parse_tokens].
  - by intros [= <-].
  - destruct (str_in "-" t).
    + destruct (range_token t ports) eqn:Ht; [|done].
      eauto using range_token_valid.
    + destruct (port_token t ports) eqn:Ht; [|done].
      eauto using port_token_valid.
Qed.

Lemma elem_of_sorted p (ports : gset Z) : p ∈ sorted ports <-> p ∈ ports.
Proof. unfold sorted. by rewrite merge_sort_Permutation, elem_of_elements. Qed.

(** [parse_ports_simple] stops at the first token that [int] refuses and
    otherwise returns what [int] gives, token by token. *)
Lemma parse_ports_simple_loop_rejects tokens token ports :
  token ∈ tokens -> int token = None ->
  exists e, Recon_tool.parse_ports_simple_loop tokens ports = inl e.
Proof.
  intros Hin Hbad. revert ports.
  induction tokens as [|t tokens IH]; intros ports; [by inversion Hin|].
  cbn [Recon_tool.parse_ports_simple_loop].
  destruct (decide (t = token)) as [->|Hne].
  - rewrite Hbad. eauto.
  - assert (token ∈ tokens) as Hin' by (inversion Hin; by subst).
    destruct (int t); eauto.
Qed.

Lemma parse_ports_simple_loop_accepts tokens ports l :
  mapM int tokens = Some l ->
  Recon_tool.parse_ports_simple_loop tokens ports = inr (ports ++ l).
Proof.
  revert ports l. induction tokens as [|t tokens IH]; intros ports l.
  - intros [= <-]. by rewrite app_nil_r.
  - cbn [mapM Recon_tool.parse_ports_simple_loop].
    destruct (int t) as [p|]; [|done]. cbn [mbind option_bind].
    destruct (mapM int tokens) as [l'|] eqn:Hl'; [|done].
    intros [= <-]. rewrite (IH _ l') by done. by rewrite <- app_assoc.
Qed.

(** What [parse_ports_simple] returns was typed, token by token. *)
Lemma parse_ports_simple_loop_sound tokens acc ports p :
  Recon_tool.parse_ports_simple_loop tokens acc = inr ports ->
  p ∈ ports ->
  p ∈ acc \/ exists token, token ∈ tokens /\ Py.int token = Some p.
Proof.
  revert acc. induction tokens as [|t tokens IH]; intros acc.
  - intros [= <-]. auto.
  - cbn [Recon_tool.parse_ports_simple_loop].
    destruct (Py.int t) as [q|] eqn:Hq; [|done].
    intros Hrun Hp. destruct (IH _ Hrun Hp) as [Hacc|(token & Hin & Htok)].
    + apply elem_of_app in Hacc as [Hacc|Heq]; [auto|].
      apply list_elem_of_singleton in Heq as ->.
      right. exists t. split; [apply list_elem_of_here|done].
    + right. exists token. split; [by apply list_elem_of_further|done].
Qed.

End ExpanderFacts.

(** ** Facts on the scan engine *)

Section EngineFacts.
Import Advanced.

Lemma as_completed_Permutation {A} (sched : list nat) (l : list A) :
  as_completed sched l ≡ₚ l.
Proof.
  revert l. induction sched as [|k sched IH]; intros l; [done|].
  cbn [as_completed].
  destruct (l !! (k mod length l)%nat) as [x|] eqn:Hx.
  - rewrite IH. symmetry. by apply delete_Permutation.
  - destruct l as [|y l]; [done|].
    apply lookup_ge_None in Hx.
    pose proof (Nat.mod_upper_bound k (length (y :: l))) as Hlt.
    simpl in *. lia.
Qed.

(** Every order of completion is the choice of some scheduler. *)
Lemma as_completed_any_order {A} (l l' : list A) :
  l' ≡ₚ l -> exists sched, as_completed sched l = l'.
Proof.
  revert l. induction l' as [|x l' IH]; intros l Hperm.
  - apply Permutation_nil_l in Hperm as ->. by exists [].
  - assert (x ∈ l) as [i Hi]%list_elem_of_lookup
      by (rewrite <- Hperm; apply list_elem_of_here).
    destruct (IH (delete i l)) as [sched Hsched].
    { apply (Permutation_cons_inv (a := x)).
      by rewrite Hperm, <- delete_Permutation. }
    exists (i :: sched). cbn [as_completed].
    rewrite Nat.mod_small by by eapply lookup_lt_Some.
    by rewrite Hi, Hsched.
Qed.

Lemma record_result_app p r (acc : buckets) :
  record_result p r acc
  = (acc.1 ++ (outcome_of_unit (p, r)).1, acc.2 ++ (outcome_of_unit (p, r)).2).
Proof.
  destruct acc as [o c]. unfold outcome_of_unit.
  destruct r as [[[[port is_open] err] el]|text]; simpl;
    [destruct is_open|]; simpl; by rewrite ?app_nil_r.
Qed.

(** Each future puts one entry in one bucket, with its own port. *)
Lemma outcome_of_unit_one u :
  (length (outcome_of_unit u).1 + length (outcome_of_unit u).2 = 1)%nat.
Proof.
  destruct u as [p [[[[port is_open] err] el]|text]];
    [destruct is_open|]; done.
Qed.

(** The loop when no interrupt falls inside it. *)
Lemma consume_uninterrupted completed interrupt acc :
  (forall i, interrupt = Some i -> (length completed <= i)%nat) ->
  consume completed interrupt acc
  = inr (acc.1 ++ (completed ≫= fun u => (outcome_of_unit u).1),
         acc.2 ++ (completed ≫= fun u => (outcome_of_unit u).2)).
Proof.
  revert interrupt acc.
  induction completed as [|[p r] completed IH]; intros interrupt acc Hint.
  - simpl. rewrite !app_nil_r. by destruct acc.
  - cbn [consume].
    destruct interrupt as [[|j]|].
    + specialize (Hint 0%nat eq_refl). simpl in Hint. lia.
    + rewrite IH, record_result_app; cbn [fst snd mbind list_bind].
      * by rewrite <- !app_assoc.
      * intros i [= <-]. specialize (Hint (S j) eq_refl). simpl in Hint. lia.
    + rewrite IH, record_result_app; cbn [fst snd mbind list_bind]; [|done].
      by rewrite <- !app_assoc.
Qed.

(** The loop when the interrupt falls inside it. *)
Lemma consume_interrupted completed i acc :
  (i < length completed)%nat ->
  consume completed (Some i) acc = inl Py.KeyboardInterrupt.
Proof.
  revert i acc. induction completed as [|[p r] completed IH]; intros i acc Hi.
  - simpl in Hi. lia.
  - cbn [consume]. destruct i as [|i]; [done|].
    apply IH. simpl in Hi. lia.
Qed.

Lemma bind_length_one {A B C} (f : A -> list B) (g : A -> list C) (l : list A) :
  (forall u, (length (f u) + length (g u) = 1)%nat) ->
  (length (l ≫= f) + length (l ≫= g) = length l)%nat.
Proof.
  intros Hone. induction l as [|u l IH]; [done|].
  cbn [mbind list_bind]. rewrite !length_app. specialize (Hone u). simpl. lia.
Qed.

(** The port recorded for a future. *)
Lemma outcome_of_unit_ports u :
  (o_port <$> (outcome_of_unit u).1) ++ (c_port <$> (outcome_of_unit u).2)
  = [match u.2 with Returned (port, _, _, _) => port | Raised _ => u.1 end].
Proof.
  destruct u as [p [[[[port is_open] err] el]|text]];
    [destruct is_open|]; done.
Qed.

Lemma bind_ports (l : list (Z * fut_result)) :
  (o_port <$> (l ≫= fun u => (outcome_of_unit u).1))
    ++ (c_port <$> (l ≫= fun u => (outcome_of_unit u).2))
  ≡ₚ (fun u : Z * fut_result =>
        match u.2 with Returned (port, _, _, _) => port | Raised _ => u.1 end)
     <$> l.
Proof.
  induction l as [|u l IH]; [done|].
  cbn [mbind list_bind]. rewrite !fmap_app, fmap_cons, <- IH.
  set (O1 := o_port <$> (outcome_of_unit u).1).
  set (C1 := c_port <$> (outcome_of_unit u).2).
  set (O2 := o_port <$> _). set (C2 := c_port <$> _).
  trans ((O1 ++ C1) ++ (O2 ++ C2)).
  - rewrite <- !app_assoc. apply Permutation_app_head.
    rewrite !app_assoc. apply Permutation_app_tail, Permutation_app_comm.
  - unfold O1, C1. by rewrite outcome_of_unit_ports.
Qed.

Lemma scan_port_port p env : (scan_port p env).1.1.1 = p.
Proof.
  unfold scan_port. destruct (sock env) as [code|text]; [|done].
  by destruct (code =? 0).
Qed.

(** The futures of [submit_all] record the submitted ports. *)
Lemma submit_all_ports ports env :
  (fun u : Z * fut_result =>
     match u.2 with Returned (port, _, _, _) => port | Raised _ => u.1 end)
  <$> submit_all ports env = ports.
Proof.
  unfold submit_all. rewrite fmap_imap.
  rewrite <- (list_fmap_id ports) at 2. rewrite <- imap_const.
  apply imap_ext. intros i p _. unfold compose, const. cbn [fst snd].
  destruct (worker env i) as [e|text]; [|done]. cbn [run_future].
  pose proof (scan_port_port p e) as Hp.
  by destruct (scan_port p e) as [[[port is_open] err] el].
Qed.

Lemma length_completed sched ports env :
  length (as_completed sched (submit_all ports env)) = length ports.
Proof.
  rewrite as_completed_Permutation. unfold submit_all. apply length_imap.
Qed.

(** The result of a run that is not interrupted. *)
Lemma scan_uninterrupted ports max_workers env :
  1 <= max_workers ->
  (forall i, interrupt env = Some i -> (length ports <= i)%nat) ->
  scan_ports_concurrent ports max_workers env
  = {| executor_calls := (Submit <$> ports) ++ [Shutdown true false];
       outcome :=
         inr (as_completed (schedule env) (submit_all ports env)
                ≫= (fun u => (outcome_of_unit u).1),
              as_completed (schedule env) (submit_all ports env)
                ≫= (fun u => (outcome_of_unit u).2)) |}.
Proof.
  intros Hk Hint. unfold scan_ports_concurrent.
  destruct (Z.leb_spec max_workers 0); [lia|].
  rewrite consume_uninterrupted; [done|].
  intros i Hi. rewrite length_completed. auto.
Qed.

End EngineFacts.

Lemma elem_of_submit_all ports env i p :
  ports !! i = Some p ->
  (p, Advanced.run_future p (Advanced.worker env i))
    ∈ Advanced.as_completed (Advanced.schedule env) (Advanced.submit_all ports env).
Proof.
  intros Hp. rewrite as_completed_Permutation.
  apply list_elem_of_lookup. exists i.
  unfold Advanced.submit_all. by rewrite list_lookup_imap, Hp.
Qed.

Lemma elem_of_open_bucket completed u x :
  u ∈ completed -> x ∈ (Advanced.outcome_of_unit u).1 ->
  x ∈ completed ≫= (fun u => (Advanced.outcome_of_unit u).1).
Proof. intros Hu Hx. apply list_elem_of_bind. eauto. Qed.

Lemma elem_of_closed_bucket completed u x :
  u ∈ completed -> x ∈ (Advanced.outcome_of_unit u).2 ->
  x ∈ completed ≫= (fun u => (Advanced.outcome_of_unit u).2).
Proof. intros Hu Hx. apply list_elem_of_bind. eauto. Qed.

Example parse_ports_mixed :
  Advanced.parse_ports "22,80 8000-8003, 443 80" = inr [22; 80; 443; 8000; 8001; 8002; 8003].
Proof. vm_compute. reflexivity. Qed.

Example parse_ports_20_25 :
  Advanced.parse_ports "20-25" = inr [20; 21; 22; 23; 24; 25].
Proof. vm_compute. reflexivity. Qed.

Example parse_ports_99999 :
  Advanced.parse_ports "99999" = inl (Py.ValueError "Invalid port token: '99999'").
Proof. vm_compute. reflexivity. Qed.

Example str_examples :
  Py.str 0 = "0"%string /\ Py.str 65535 = "65535"%string /\ Py.str (-40) = "-40"%string
  /\ Py.int "1_000" = Some 1000 /\ Py.int "+5" = Some 5 /\ Py.int "1__0" = None
  /\ Py.int EmptyString = None /\ Py.int " 12 " = Some 12.
Proof. vm_compute. repeat split. Qed.

Example split_examples :
  Py.split ("  22 80" +:+ String (ascii_of_nat 9) (String (ascii_of_nat 10) " 443 "))
  = ["22"; "80"; "443"]%string
  /\ Py.split1 "-" "5--3" = ["5"; "-3"]%string
  /\ Py.split1 "-" "-5" = [EmptyString; "5"%string]
  /\ Py.split1 "-" "8000-" = ["8000"%string; EmptyString].
Proof. vm_compute. repeat split. Qed.

Example parse_ports_odd_tokens :
  Advanced.parse_ports "1-+5" = inr [1; 2; 3; 4; 5]
  /\ Advanced.parse_ports "5--3"
     = inl (Py.ValueError "Invalid range token: '5--3'")
  /\ Advanced.parse_ports "80 -5"
     = inl (Py.ValueError "Invalid range token: '-5'")
  /\ Advanced.parse_ports "80,http"
     = inl (Py.ValueError "Invalid port token: 'http'")
  /\ Advanced.parse_ports "0" = inl (Py.ValueError "Invalid port token: '0'")
  /\ Advanced.parse_ports "0-10"
     = inl (Py.ValueError "Invalid range token: '0-10'")
  /\ Advanced.parse_ports EmptyString = inr [].
Proof. vm_compute. repeat split. Qed.

Example hosts_examples :
  ipaddress.hosts <$> ipaddress.ip_network ipaddress.IPv4 (ipaddress.ipv4 10 0 0 5) 30
  = Some [ipaddress.ipv4 10 0 0 5; ipaddress.ipv4 10 0 0 6]
  /\ ipaddress.hosts <$> ipaddress.ip_network ipaddress.IPv4 (ipaddress.ipv4 10 0 0 5) 32
     = Some [ipaddress.ipv4 10 0 0 5]
  /\ ipaddress.ip_network ipaddress.IPv4 (ipaddress.ipv4 10 0 0 5) 33 = None.
Proof. vm_compute. repeat split. Qed.

Example int_digit_limit_examples :
  (exists v, Py.int Samples_more.digits_4300 = Some v)
  /\ Py.int Samples_more.digits_4301 = None
  /\ Py.int (" +" +:+ Samples_more.digits_4301) = None
  /\ (exists e, Recon_tool.parse_ports_simple ("22 " +:+ Samples_more.digits_4301)
                = inl e)
  /\ Advanced.parse_ports Samples_more.digits_4301
     = inl (Py.ValueError ("Invalid port token: '" +:+ Samples_more.digits_4301
                             +:+ "'")).
Proof.
  split; [eexists; vm_compute; reflexivity|].
  split; [vm_compute; reflexivity|].
  split; [vm_compute; reflexivity|].
  split; [eexists; vm_compute; reflexivity|].
  vm_compute; reflexivity.
Qed.

Example parse_ports_simple_mixed :
  Recon_tool.parse_ports_simple "22 80  443 80" = inr [22; 80; 443; 80].
Proof. vm_compute. reflexivity. Qed.

Example lab_run_result :
  Advanced.outcome (Advanced.scan_ports_concurrent Samples.lab_ports 4 Samples.lab_run)
  = inr ([ {| Advanced.o_port := 80; Advanced.o_elapsed := 0.5 |};
           {| Advanced.o_port := 22; Advanced.o_elapsed := 0.25 |} ],
         [ {| Advanced.c_port := 443; Advanced.c_error := None;
              Advanced.c_elapsed := 0.125 |};
           {| Advanced.c_port := 23; Advanced.c_error := Some "timed out"%string;
              Advanced.c_elapsed := 1 |};
           {| Advanced.c_port := 25;
              Advanced.c_error := Some "unexpected fault in worker"%string;
              Advanced.c_elapsed := 0 |} ]).
Proof. vm_compute. reflexivity. Qed.

(** ** The scan engine *)

(** C1, as the code has it. A run of [scan_ports_concurrent] that is not
    interrupted returns two buckets in which every submitted port has
    exactly one entry: their sizes add up to the number of submitted ports
    and the recorded ports are a permutation of the submitted ones, in any
    order of completion. A run interrupted inside the loop returns
    nothing: it raises [KeyboardInterrupt]. *)
Theorem scan_totality_uninterrupted
    (ports : list Z) (max_workers : Z) (env : Advanced.run_env) :
  1 <= max_workers ->
  ((forall i, Advanced.interrupt env = Some i -> (length ports <= i)%nat) ->
   exists results_open results_closed,
     Advanced.outcome (Advanced.scan_ports_concurrent ports max_workers env)
     = inr (results_open, results_closed)
     /\ (length results_open + length results_closed = length ports)%nat
     /\ (Advanced.o_port <$> results_open)
          ++ (Advanced.c_port <$> results_closed) ≡ₚ ports)
  /\ (forall i, Advanced.interrupt env = Some i -> (i < length ports)%nat ->
      Advanced.outcome (Advanced.scan_ports_concurrent ports max_workers env)
      = inl Py.KeyboardInterrupt).
Proof.
  intros Hk. split.
  - intros Hint. rewrite scan_uninterrupted by done.
    cbn [Advanced.outcome]. eexists _, _. split; [reflexivity|]. split.
    + rewrite bind_length_one by apply outcome_of_unit_one.
      apply length_completed.
    + rewrite bind_ports, as_completed_Permutation. by rewrite submit_all_ports.
  - intros i Hint Hi. unfold Advanced.scan_ports_concurrent.
    destruct (Z.leb_spec max_workers 0); [lia|].
    rewrite Hint, consume_interrupted; [done|].
    by rewrite length_completed.
Qed.

Lemma scan_totality_uninterrupted_witness :
  1 <= 4
  /\ (forall i, Advanced.interrupt Samples.lab_run = Some i ->
        (length Samples.lab_ports <= i)%nat)
  /\ exists results_open results_closed,
       Advanced.outcome
         (Advanced.scan_ports_concurrent Samples.lab_ports 4 Samples.lab_run)
       = inr (results_open, results_closed)
       /\ (length results_open + length results_closed
            = length Samples.lab_ports)%nat
       /\ (Advanced.o_port <$> results_open)
            ++ (Advanced.c_port <$> results_closed) ≡ₚ Samples.lab_ports.
Proof.
  assert (1 <= 4) as H1 by (vm_compute; discriminate).
  assert (forall i, Advanced.interrupt Samples.lab_run = Some i ->
                    (length Samples.lab_ports <= i)%nat) as H2
    by (intros i Hi; discriminate Hi).
  exact (conj H1 (conj H2
    (proj1 (scan_totality_uninterrupted Samples.lab_ports 4 Samples.lab_run H1)
       H2))).
Defined.

(** C1 as stated fails under interruption: the interrupted run of five
    ports returns no buckets at all, so nothing adds up to five. *)
Lemma scan_totality_interrupted_counterexample :
  ~ exists results_open results_closed,
      Advanced.outcome
        (Advanced.scan_ports_concurrent Samples.lab_ports 4
           Samples.lab_run_interrupted)
      = inr (results_open, results_closed)
      /\ (length results_open + length results_closed
           = length Samples.lab_ports)%nat.
Proof. intros (o & c & Hrun & _). vm_compute in Hrun. discriminate Hrun. Qed.

(** C2, as the code has it. In a run that is not interrupted, a probe
    that raises does not stop the run: buckets are returned, the unit whose
    future raises has the entry [{port, error: str(exc), elapsed: 0.0}] in
    the closed bucket, the unit whose socket raises inside [scan_port] has
    the entry [{port, error: str(e), elapsed}] there, and every other unit
    has the entry its own probe gives, whatever its siblings did. A run
    interrupted inside the loop raises [KeyboardInterrupt] and returns
    nothing: the faults handled before the interrupt are recorded
    nowhere. *)
Theorem probe_fault_recorded
    (ports : list Z) (max_workers : Z) (env : Advanced.run_env) :
  1 <= max_workers ->
  ((forall i, Advanced.interrupt env = Some i -> (length ports <= i)%nat) ->
   exists results_open results_closed,
     Advanced.outcome (Advanced.scan_ports_concurrent ports max_workers env)
     = inr (results_open, results_closed)
     /\ forall i p, ports !! i = Some p ->
          match Advanced.worker env i with
          | Advanced.Escaped text =>
              {| Advanced.c_port := p; Advanced.c_error := Some text;
                 Advanced.c_elapsed := 0 |} ∈ results_closed
          | Advanced.Ran e =>
              match Advanced.sock e with
              | Advanced.SockRaises text =>
                  Advanced.scan_port p e
                  = (p, false, Some text, Advanced.elapsed e)
                  /\ {| Advanced.c_port := p; Advanced.c_error := Some text;
                        Advanced.c_elapsed := Advanced.elapsed e |}
                       ∈ results_closed
              | Advanced.ConnectEx code =>
                  if code =? 0
                  then {| Advanced.o_port := p;
                          Advanced.o_elapsed := Advanced.elapsed e |}
                         ∈ results_open
                  else {| Advanced.c_port := p; Advanced.c_error := None;
                          Advanced.c_elapsed := Advanced.elapsed e |}
                         ∈ results_closed
              end
          end)
  /\ (forall i, Advanced.interrupt env = Some i -> (i < length ports)%nat ->
      Advanced.outcome (Advanced.scan_ports_concurrent ports max_workers env)
      = inl Py.KeyboardInterrupt).
Proof.
  intros Hk. split.
  - intros Hint. rewrite scan_uninterrupted by done.
    cbn [Advanced.outcome]. eexists _, _. split; [reflexivity|].
    intros i p Hp. pose proof (elem_of_submit_all ports env i p Hp) as Hin.
    destruct (Advanced.worker env i) as [e|text].
    + unfold Advanced.run_future, Advanced.scan_port in *.
      destruct (Advanced.sock e) as [code|text];
        [destruct (code =? 0)|split; [done|]].
      * eapply elem_of_open_bucket; [exact Hin|].
        apply list_elem_of_singleton; done.
      * eapply elem_of_closed_bucket; [exact Hin|].
        apply list_elem_of_singleton; done.
      * eapply elem_of_closed_bucket; [exact Hin|].
        apply list_elem_of_singleton; done.
    + eapply elem_of_closed_bucket; [exact Hin|].
      apply list_elem_of_singleton; done.
  - intros i Hint Hi. unfold Advanced.scan_ports_concurrent.
    destruct (Z.leb_spec max_workers 0); [lia|].
    rewrite Hint, consume_interrupted; [done|].
    by rewrite length_completed.
Qed.

Lemma probe_fault_recorded_witness :
  1 <= 4
  /\ (forall i, Advanced.interrupt Samples.lab_run = Some i ->
        (length Samples.lab_ports <= i)%nat)
  /\ exists results_open results_closed,
       Advanced.outcome
         (Advanced.scan_ports_concurrent Samples.lab_ports 4 Samples.lab_run)
       = inr (results_open, results_closed)
       /\ {| Advanced.c_port := 25;
             Advanced.c_error := Some "unexpected fault in worker"%string;
             Advanced.c_elapsed := 0 |} ∈ results_closed
       /\ {| Advanced.c_port := 23; Advanced.c_error := Some "timed out"%string;
             Advanced.c_elapsed := 1 |} ∈ results_closed
       /\ {| Advanced.o_port := 80; Advanced.o_elapsed := 0.5 |} ∈ results_open.
Proof.
  assert (1 <= 4) as H1 by (vm_compute; discriminate).
  assert (forall i, Advanced.interrupt Samples.lab_run = Some i ->
                    (length Samples.lab_ports <= i)%nat) as H2
    by (intros i Hi; discriminate Hi).
  split; [exact H1|]. split; [exact H2|].
  destruct (proj1 (probe_fault_recorded Samples.lab_ports 4 Samples.lab_run H1)
              H2)
    as (o & c & Hrun & Hunits).
  exists o, c. split; [exact Hrun|].
  split; [exact (Hunits 2%nat 25 eq_refl)|].
  split; [exact (proj2 (Hunits 1%nat 23 eq_refl))|].
  exact (Hunits 3%nat 80 eq_refl).
Defined.

(** C2 as stated fails under interruption: the faults of ports 25 and 23
    are handled first, then the interrupt comes; the run is given up and
    no outcome is recorded for either unit. *)
Lemma probe_fault_interrupted_counterexample :
  take 2 (Advanced.as_completed
            (Advanced.schedule Samples_more.lab_run_fault_then_interrupt)
            (Advanced.submit_all Samples.lab_ports
               Samples_more.lab_run_fault_then_interrupt))
  = [(25, Advanced.Raised "unexpected fault in worker");
     (23, Advanced.Returned (23, false, Some "timed out"%string, 1%float))]
  /\ Advanced.outcome
       (Advanced.scan_ports_concurrent Samples.lab_ports 4
          Samples_more.lab_run_fault_then_interrupt)
     = inl Py.KeyboardInterrupt
  /\ ~ exists results_open results_closed,
        Advanced.outcome
          (Advanced.scan_ports_concurrent Samples.lab_ports 4
             Samples_more.lab_run_fault_then_interrupt)
        = inr (results_open, results_closed)
        /\ {| Advanced.c_port := 25;
              Advanced.c_error := Some "unexpected fault in worker"%string;
              Advanced.c_elapsed := 0 |} ∈ results_closed.
Proof.
  split; [vm_compute; reflexivity|]. split; [vm_compute; reflexivity|].
  intros (o & c & Hrun & _). vm_compute in Hrun. discriminate Hrun.
Qed.

(** C3, as the code has it. When the interrupt falls inside the loop the
    engine calls [executor.shutdown(wait=False, cancel_futures=True)],
    which cancels every call still queued, so that it is never started,
    and leaves the [with] block, whose exit is [shutdown(wait=True)] and
    lets every call in flight run to its end; then [KeyboardInterrupt] is
    raised again. No buckets are returned, hence no entry for any unit,
    cancelled or not. *)
Theorem interrupt_raises
    (ports : list Z) (max_workers : Z) (env : Advanced.run_env) (i : nat) :
  1 <= max_workers ->
  Advanced.interrupt env = Some i ->
  (i < length ports)%nat ->
  exists handler,
    Advanced.scan_ports_concurrent ports max_workers env
    = {| Advanced.executor_calls := (Advanced.Submit <$> ports) ++ handler;
         Advanced.outcome := inl Py.KeyboardInterrupt |}
    /\ handler = [Advanced.Shutdown false true; Advanced.Shutdown true false]
    /\ forall pool : list Pool.call_state,
         length (foldl Pool.perform pool handler) = length pool
         /\ (forall j, pool !! j = Some Pool.Queued ->
              foldl Pool.perform pool handler !! j = Some Pool.Cancelled)
         /\ (forall j, pool !! j = Some Pool.Running ->
              foldl Pool.perform pool handler !! j = Some Pool.Finished)
         /\ (forall j st, pool !! j = Some st ->
              st = Pool.Finished \/ st = Pool.Cancelled ->
              foldl Pool.perform pool handler !! j = Some st)
         /\ (forall j st, foldl Pool.perform pool handler !! j = Some st ->
              st = Pool.Finished \/ st = Pool.Cancelled).
Proof.
  intros Hk Hint Hi.
  exists [Advanced.Shutdown false true; Advanced.Shutdown true false].
  split.
  { unfold Advanced.scan_ports_concurrent.
    destruct (Z.leb_spec max_workers 0) as [Hbad|_]; [lia|].
    assert (i < length (Advanced.as_completed (Advanced.schedule env)
                          (Advanced.submit_all ports env)))%nat as Hlen
      by by rewrite length_completed.
    rewrite Hint. by rewrite (consume_interrupted _ _ _ Hlen). }
  split; [reflexivity|].
  intros pool. cbn [foldl Pool.perform].
  assert (forall j,
            (Pool.shutdown true false <$> (Pool.shutdown false true <$> pool))
              !! j
            = (fun st => match st with
                         | Pool.Queued => Pool.Cancelled
                         | Pool.Running => Pool.Finished
                         | st => st
                         end) <$> pool !! j) as Hafter.
  { intros j. rewrite !list_lookup_fmap.
    by destruct (pool !! j) as [[]|]. }
  split; [by rewrite !length_fmap|].
  split; [intros j Hj; by rewrite Hafter, Hj|].
  split; [intros j Hj; by rewrite Hafter, Hj|].
  split.
  - intros j st Hj [-> | ->]; by rewrite Hafter, Hj.
  - intros j st. rewrite Hafter.
    destruct (pool !! j) as [[]|]; intros [= <-]; auto.
Qed.

Lemma interrupt_raises_witness :
  1 <= 3
  /\ Advanced.interrupt Samples.sleepy_run = Some 0%nat
  /\ (0 < length Samples.sleepy_ports)%nat
  /\ exists handler,
       Advanced.scan_ports_concurrent Samples.sleepy_ports 3 Samples.sleepy_run
       = {| Advanced.executor_calls :=
              (Advanced.Submit <$> Samples.sleepy_ports) ++ handler;
            Advanced.outcome := inl Py.KeyboardInterrupt |}
       /\ handler = [Advanced.Shutdown false true; Advanced.Shutdown true false]
       /\ foldl Pool.perform Samples_more.sleepy_pool handler
          = replicate 3 Pool.Finished ++ replicate 7 Pool.Cancelled.
Proof.
  assert (1 <= 3) as H1 by (vm_compute; discriminate).
  assert (Advanced.interrupt Samples.sleepy_run = Some 0%nat) as H2
    by reflexivity.
  assert (0 < length Samples.sleepy_ports)%nat as H3
    by (vm_compute; repeat constructor).
  split; [exact H1|]. split; [exact H2|]. split; [exact H3|].
  destruct (interrupt_raises Samples.sleepy_ports 3 Samples.sleepy_run 0
              H1 H2 H3) as (handler & Hrun & Hhandler & _).
  exists handler. split; [exact Hrun|].
  split; [exact Hhandler|]. rewrite Hhandler. reflexivity.
Defined.

(** C3 as stated fails: with ten ports, three workers and probes that
    sleep, the interrupted run returns no report of ten entries, seven of
    them with the error text "cancelled". *)
Lemma cancelled_outcomes_counterexample :
  ~ exists results_open results_closed,
      Advanced.outcome
        (Advanced.scan_ports_concurrent Samples.sleepy_ports 3 Samples.sleepy_run)
      = inr (results_open, results_closed)
      /\ (length results_open + length results_closed = 10)%nat
      /\ length (filter (fun e => Advanced.c_error e = Some "cancelled"%string)
                   results_closed) = 7%nat.
Proof. intros (o & c & Hrun & _). vm_compute in Hrun. discriminate Hrun. Qed.

(** ** The port expanders *)

(** C4, as the code has it. [parse_ports] raises [ValueError], and returns
    no list, as soon as one token of the input is a port that [int]
    refuses or that lies outside 1..65535, or a range one end of which
    [int] refuses or lies outside 1..65535; what it returns holds only
    ports in 1..65535. [parse_ports_simple] raises only on a token that
    [int] refuses, which includes every token of more than 4300 digits,
    and has no range check: it returns what [int] gives for each token
    when [int] accepts them all. *)
Theorem parse_ports_rejects (port_input token : string) :
  (token ∈ Py.split (Py.replace "," " " port_input) ->
   Py.str_in "-" token = false ->
   Py.int token = None
   \/ (exists p, Py.int token = Some p /\ (p < 1 \/ 65535 < p)) ->
   exists msg, Advanced.parse_ports port_input = inl (Py.ValueError msg))
  /\ (forall s e,
        token ∈ Py.split (Py.replace "," " " port_input) ->
        Py.str_in "-" token = true ->
        Py.split1 "-" token = [s; e] ->
        Py.int s = None \/ Py.int e = None
        \/ (exists x y, Py.int s = Some x /\ Py.int e = Some y
                        /\ (Z.min x y < 1 \/ 65535 < Z.max x y)) ->
        exists msg, Advanced.parse_ports port_input = inl (Py.ValueError msg))
  /\ (forall ports p,
        Advanced.parse_ports port_input = inr ports -> p ∈ ports ->
        1 <= p <= 65535)
  /\ (token ∈ Py.split port_input -> Py.int token = None ->
      exists e, Recon_tool.parse_ports_simple port_input = inl e)
  /\ (forall ports,
        mapM Py.int (Py.split port_input) = Some ports ->
        Recon_tool.parse_ports_simple port_input = inr ports)
  /\ (token ∈ Py.split port_input ->
      Py.int_max_str_digits < Py.digit_count token ->
      exists e, Recon_tool.parse_ports_simple port_input = inl e)
  /\ (forall ports p,
        Recon_tool.parse_ports_simple port_input = inr ports -> p ∈ ports ->
        exists t, t ∈ Py.split port_input /\ Py.int t = Some p
                  /\ Py.digit_count t <= Py.int_max_str_digits).
Proof.
  split; [|split; [|split; [|split; [|split; [|split]]]]].
  - intros Hin Hdash Hbad. unfold Advanced.parse_ports.
    destruct (parse_tokens_rejects _ token ∅ Hin) as [msg ->]; [|eauto].
    rewrite Hdash. intros ps. by apply port_token_None.
  - intros s e Hin Hdash Hsplit Hbad. unfold Advanced.parse_ports.
    destruct (parse_tokens_rejects _ token ∅ Hin) as [msg ->]; [|eauto].
    rewrite Hdash. intros ps.
    destruct Hbad as [Hs|[He|(x & y & Hx & Hy & Hxy)]];
      eauto using range_token_None_malformed, range_token_None_out_of_range.
  - intros ports p. unfold Advanced.parse_ports.
    destruct (Advanced.parse_tokens _ ∅) as [e|set] eqn:Hset; [done|].
    intros [= <-] Hp%elem_of_sorted.
    by apply (parse_tokens_valid _ _ _ Hset).
  - intros Hin Hbad. by eapply parse_ports_simple_loop_rejects.
  - intros ports Hall. unfold Recon_tool.parse_ports_simple.
    by rewrite (parse_ports_simple_loop_accepts _ _ ports).
  - intros Hin Hlong.
    eapply parse_ports_simple_loop_rejects; [exact Hin|].
    by apply int_too_long.
  - intros ports p Hrun Hp.
    destruct (parse_ports_simple_loop_sound _ _ _ _ Hrun Hp)
      as [Hnil|(t & Ht & Hint)]; [by inversion Hnil|].
    exists t. split; [done|]. split; [done|]. by eapply int_digit_limit.
Qed.

Lemma parse_ports_rejects_witness :
  "99999"%string ∈ Py.split (Py.replace "," " " "22,99999 80")
  /\ Py.str_in "-" "99999" = false
  /\ Py.int "99999" = Some 99999 /\ 65535 < 99999
  /\ exists msg,
       Advanced.parse_ports "22,99999 80" = inl (Py.ValueError msg).
Proof.
  assert ("99999"%string ∈ Py.split (Py.replace "," " " "22,99999 80")) as H1
    by (vm_compute; apply list_elem_of_further, list_elem_of_here).
  assert (Py.str_in "-" "99999" = false) as H2 by reflexivity.
  assert (Py.int "99999" = Some 99999) as H3 by reflexivity.
  assert (65535 < 99999) as H4 by reflexivity.
  repeat (split; [assumption|]).
  apply (proj1 (parse_ports_rejects "22,99999 80" "99999") H1 H2).
  right. exists 99999. split; [exact H3|]. right. exact H4.
Defined.

(** C4 as stated fails on the simple expander: the token 99999 is
    returned, not refused. *)
Lemma parse_ports_simple_counterexample :
  Recon_tool.parse_ports_simple "99999" = inr [99999]
  /\ ~ exists e, Recon_tool.parse_ports_simple "99999" = inl e.
Proof. split; [by vm_compute|]. intros [e He]. vm_compute in He. discriminate He. Qed.

(** C5. For [1 <= a <= b <= 65535], [parse_ports] on the token "a-b"
    returns the list [a, a+1, ..., b]: its members are exactly the
    integers from [a] to [b], it is strictly ascending and holds no
    duplicate. (For "20-25" see [parse_ports_20_25] and the witness.) *)
Theorem parse_ports_ascending_range (a b : Z) :
  1 <= a -> a <= b -> b <= 65535 ->
  exists ports,
    Advanced.parse_ports (Py.str a +:+ "-" +:+ Py.str b) = inr ports
    /\ ports = Py.range a (b + 1)
    /\ (forall p, p ∈ ports <-> a <= p <= b)
    /\ Sorted Z.lt ports
    /\ NoDup ports.
Proof.
  intros Ha Hab Hb. exists (Py.range a (b + 1)).
  split; [|split; [done|split; [|split]]].
  - rewrite parse_ports_one_range by lia.
    by rewrite Z.min_l, Z.max_r by lia.
  - intros p. unfold Py.range. rewrite elem_of_seqZ. lia.
  - apply Sorted_lt_seqZ.
  - apply NoDup_seqZ.
Qed.

Lemma parse_ports_ascending_range_witness :
  1 <= 20 /\ 20 <= 25 /\ 25 <= 65535
  /\ Advanced.parse_ports "20-25" = inr [20; 21; 22; 23; 24; 25].
Proof.
  assert (1 <= 20) as H1 by (vm_compute; discriminate).
  assert (20 <= 25) as H2 by (vm_compute; discriminate).
  assert (25 <= 65535) as H3 by (vm_compute; discriminate).
  repeat (split; [assumption|]).
  destruct (parse_ports_ascending_range 20 25 H1 H2 H3) as (ports & Hrun & -> & _).
  exact Hrun.
Defined.

(** C10. For [a] and [b] with [1 <= min(a,b)] and [max(a,b) <= 65535],
    [parse_ports] returns the same list on "a-b" and on "b-a", namely the
    ascending list from [min(a,b)] to [max(a,b)]: a reversed range is
    neither refused nor emptied. *)
Theorem parse_ports_reversed_range (a b : Z) :
  1 <= Z.min a b -> Z.max a b <= 65535 ->
  Advanced.parse_ports (Py.str a +:+ "-" +:+ Py.str b)
  = Advanced.parse_ports (Py.str b +:+ "-" +:+ Py.str a)
  /\ Advanced.parse_ports (Py.str a +:+ "-" +:+ Py.str b)
     = inr (Py.range (Z.min a b) (Z.max a b + 1)).
Proof.
  intros Hmin Hmax. split; [|by apply parse_ports_one_range].
  rewrite !parse_ports_one_range by lia.
  by rewrite (Z.min_comm b a), (Z.max_comm b a).
Qed.

Lemma parse_ports_reversed_range_witness :
  1 <= Z.min 25 20 /\ Z.max 25 20 <= 65535
  /\ Advanced.parse_ports "25-20" = Advanced.parse_ports "20-25"
  /\ Advanced.parse_ports "25-20" = inr [20; 21; 22; 23; 24; 25].
Proof.
  assert (1 <= Z.min 25 20) as H1 by (vm_compute; discriminate).
  assert (Z.max 25 20 <= 65535) as H2 by (vm_compute; discriminate).
  repeat (split; [assumption|]).
  exact (parse_ports_reversed_range 25 20 H1 H2).
Defined.

(** ** The probes *)

(** C6, as the code has it. [ping_ip] has two answers. When running the
    ping command raises, it returns [False], the answer it also gives for a
    host that does not reply; it returns [True] exactly when the command
    ends with return code 0. Both copies of the function agree. *)
Theorem ping_ip_failure_is_down (text : string) (returncode : Z) :
  Network_IP_Scanner.ping_ip (Network_IP_Scanner.RunRaises text) = false
  /\ Recon_tool.ping_ip (Recon_tool.RunRaises text) = false
  /\ Network_IP_Scanner.ping_ip (Network_IP_Scanner.Completed returncode)
     = bool_decide (returncode = 0)
  /\ Recon_tool.ping_ip (Recon_tool.Completed returncode)
     = bool_decide (returncode = 0).
Proof.
  assert ((returncode =? 0) = bool_decide (returncode = 0)) as Heq.
  { destruct (Z.eqb_spec returncode 0);
      [by rewrite bool_decide_eq_true_2|by rewrite bool_decide_eq_false_2]. }
  repeat split; simpl; auto.
Qed.

(** C6 as stated fails: a ping command that cannot be run gives the very
    answer of a host that is down. *)
Lemma ping_ip_failure_counterexample :
  ~ (Recon_tool.ping_ip (Recon_tool.RunRaises "[Errno 2] No such file or directory: 'ping'")
     <> Recon_tool.ping_ip (Recon_tool.Completed 1))
  /\ ~ (Network_IP_Scanner.ping_ip
         (Network_IP_Scanner.RunRaises "[Errno 2] No such file or directory: 'ping'")
       <> Network_IP_Scanner.ping_ip (Network_IP_Scanner.Completed 1)).
Proof. split; intros Hne; by apply Hne. Qed.

(** C7, as the code has it. For UDP, [is_port_open] returns [True]
    exactly when [connect_ex] on the datagram socket returns 0, [False]
    exactly when it returns another error indicator, and when
    [connect_ex] itself raises the exception goes through: nothing is
    reported. No other answer exists. *)
Theorem is_port_open_udp (net : Recon_tool.socket_type -> Recon_tool.connect_outcome) :
  (Recon_tool.is_port_open "UDP" net = inr true
   <-> net Recon_tool.SOCK_DGRAM = Recon_tool.ConnectCode 0)
  /\ (Recon_tool.is_port_open "UDP" net = inr false
      <-> exists code, code <> 0
            /\ net Recon_tool.SOCK_DGRAM = Recon_tool.ConnectCode code)
  /\ ((exists e, Recon_tool.is_port_open "UDP" net = inl e)
      <-> exists text, net Recon_tool.SOCK_DGRAM = Recon_tool.ConnectRaises text).
Proof.
  unfold Recon_tool.is_port_open.
  rewrite bool_decide_eq_false_2, bool_decide_eq_true_2 by done.
  destruct (net Recon_tool.SOCK_DGRAM) as [code|text];
    [destruct (Z.eqb_spec code 0) as [->|Hne]|].
  - repeat split; try done.
    + by intros (code & Hne & [= <-]).
    + by intros [e He].
    + by intros [text Ht].
  - repeat split; try done.
    + by intros [= ->].
    + eauto.
    + by intros [e He].
    + by intros [text Ht].
  - repeat split; try done.
    + by intros (code & _ & Hc).
    + eauto.
    + eauto.
Qed.

(** C7 as stated fails: on a host name that does not resolve the UDP
    probe reports neither open nor closed, it raises. *)
Lemma is_port_open_udp_counterexample :
  ~ (Recon_tool.is_port_open "UDP" Samples.unresolvable = inr true
     \/ Recon_tool.is_port_open "UDP" Samples.unresolvable = inr false).
Proof. intros [H|H]; vm_compute in H; discriminate H. Qed.

(** ** The host sweep *)

Section NetworkFacts.
Import ipaddress.

Lemma ALL_ONES_ones v : ALL_ONES v = Z.ones (max_prefixlen v).
Proof. unfold ALL_ONES. rewrite Z.ones_equiv. lia. Qed.

Lemma max_prefixlen_pos v : 0 < max_prefixlen v.
Proof. by destruct v. Qed.

Lemma hostmask_ones v prefix :
  0 <= prefix <= max_prefixlen v ->
  hostmask v prefix = Z.ones (max_prefixlen v - prefix).
Proof.
  intros Hp. unfold hostmask, netmask.
  rewrite (Z.lxor_comm (ALL_ONES v)), Z.lxor_assoc, Z.lxor_nilpotent,
    Z.lxor_0_r.
  rewrite ALL_ONES_ones, Z.shiftr_div_pow2 by lia.
  by apply Z.ones_div_pow2.
Qed.

(** The network address has no host bit. *)
Lemma network_land_hostmask v address prefix :
  0 <= prefix <= max_prefixlen v ->
  Z.land (Z.land address (netmask v prefix)) (hostmask v prefix) = 0.
Proof.
  intros Hp. pose proof (max_prefixlen_pos v) as Hmax.
  rewrite hostmask_ones by done.
  unfold netmask. rewrite ALL_ONES_ones, Z.shiftr_div_pow2 by lia.
  rewrite Z.ones_div_pow2 by done.
  apply Z.bits_inj'. intros i Hi.
  rewrite !Z.land_spec, Z.lxor_spec, Z.bits_0.
  destruct (Z.lt_ge_cases i (max_prefixlen v - prefix)) as [Hlow|Hhigh].
  - rewrite !Z.ones_spec_low by lia. by rewrite andb_false_r.
  - rewrite (Z.ones_spec_high (max_prefixlen v - prefix)) by lia.
    by rewrite andb_false_r.
Qed.

(** The last address of a network. *)
Lemma broadcast_address_eq v address prefix n :
  ip_network v address prefix = Some n ->
  0 <= prefix <= max_prefixlen v
  /\ prefixlen n = prefix /\ net_version n = v
  /\ broadcast_address n
     = network_address n + 2 ^ (max_prefixlen v - prefix) - 1.
Proof.
  unfold ip_network. destruct (_ && _) eqn:Hok; [|done].
  repeat (apply andb_true_iff in Hok as [Hok ?]).
  intros [= <-]. cbn [prefixlen net_version network_address].
  assert (0 <= prefix <= max_prefixlen v) as Hp by lia.
  split; [done|]. split; [done|]. split; [done|].
  unfold broadcast_address. cbn [prefixlen net_version network_address].
  pose proof (Z.add_lor_land (Z.land address (netmask v prefix))
                (hostmask v prefix)) as Hadd.
  rewrite network_land_hostmask, Z.add_0_r in Hadd by done.
  rewrite !hostmask_ones in * by done.
  rewrite Hadd, Z.ones_equiv. lia.
Qed.

End NetworkFacts.

(** C8, as the code has it. Both sweeps probe the same addresses. For an
    IPv4 subnet of prefix length at most 30 these are exactly the
    addresses strictly between the network address and the broadcast
    address, so neither of the two is probed. For an IPv6 subnet of prefix
    length at most 126 only the network address is left out: every
    address above it is probed, up to and including the last one, which
    [ipaddress] calls the broadcast address. When the prefix leaves one
    host bit or none (IPv4 /31 and /32, IPv6 /127 and /128) every address
    of the subnet is probed, the network and broadcast addresses
    included. *)
Theorem sweep_hosts (v : ipaddress.version) (address prefix : Z)
    (n : ipaddress.network) :
  ipaddress.ip_network v address prefix = Some n ->
  let hosts := Recon_tool.discover_active_hosts_units v address prefix in
  let network := ipaddress.network_address n in
  let broadcast := ipaddress.broadcast_address n in
  Network_IP_Scanner.threaded_network_scan_units v address prefix = hosts
  /\ broadcast = network + 2 ^ (ipaddress.max_prefixlen v - prefix) - 1
  /\ (prefix <= ipaddress.max_prefixlen v - 2 ->
      (network ∉ hosts)
      /\ match v with
         | ipaddress.IPv4 =>
             (broadcast ∉ hosts)
             /\ forall ip, ip ∈ hosts <-> network < ip < broadcast
         | ipaddress.IPv6 =>
             (broadcast ∈ hosts)
             /\ forall ip, ip ∈ hosts <-> network < ip <= broadcast
         end)
  /\ (ipaddress.max_prefixlen v - 1 <= prefix ->
      (network ∈ hosts) /\ (broadcast ∈ hosts)
      /\ forall ip, ip ∈ hosts <-> network <= ip <= broadcast).
Proof.
  intros Hn hosts network broadcast.
  destruct (broadcast_address_eq v address prefix n Hn)
    as (Hp & Hlen & Hver & Hbc).
  fold network broadcast in Hbc.
  assert (hosts = ipaddress.hosts n) as Hhosts.
  { subst hosts. unfold Recon_tool.discover_active_hosts_units.
    by rewrite Hn. }
  split.
  { unfold Network_IP_Scanner.threaded_network_scan_units. by rewrite Hn. }
  split; [done|].
  rewrite Hhosts. unfold ipaddress.hosts. rewrite Hlen, Hver.
  fold network broadcast. clearbody network broadcast. clear Hhosts hosts.
  split.
  - intros Hsmall.
    assert (4 <= 2 ^ (ipaddress.max_prefixlen v - prefix)) as Hpow.
    { change 4 with (2 ^ 2). apply Z.pow_le_mono_r; lia. }
    destruct (Z.eqb_spec prefix (ipaddress.max_prefixlen v - 1)); [lia|].
    destruct (Z.eqb_spec prefix (ipaddress.max_prefixlen v)); [lia|].
    unfold Py.range.
    destruct v; (split; [rewrite elem_of_seqZ; lia|]);
      (split; [rewrite elem_of_seqZ; lia|]);
      intros ip; rewrite elem_of_seqZ; lia.
  - intros Hlarge.
    destruct (Z.eqb_spec prefix (ipaddress.max_prefixlen v - 1)) as [->|Hne].
    + replace (ipaddress.max_prefixlen v - (ipaddress.max_prefixlen v - 1))
        with 1 in Hbc by lia.
      change (2 ^ 1) with 2 in Hbc.
      unfold Py.range. rewrite !elem_of_seqZ.
      split; [lia|]. split; [lia|]. intros ip. rewrite elem_of_seqZ. lia.
    + assert (prefix = ipaddress.max_prefixlen v) as -> by lia.
      rewrite Z.eqb_refl. rewrite Z.sub_diag in Hbc. change (2 ^ 0) with 1 in Hbc.
      rewrite !list_elem_of_singleton.
      split; [done|]. split; [lia|]. intros ip.
      rewrite list_elem_of_singleton. lia.
Qed.

Lemma sweep_hosts_witness :
  ipaddress.ip_network ipaddress.IPv4 (ipaddress.ipv4 192 168 1 77) 29
  = Some {| ipaddress.net_version := ipaddress.IPv4;
            ipaddress.network_address := ipaddress.ipv4 192 168 1 72;
            ipaddress.prefixlen := 29 |}
  /\ 29 <= ipaddress.max_prefixlen ipaddress.IPv4 - 2
  /\ Recon_tool.discover_active_hosts_units ipaddress.IPv4
       (ipaddress.ipv4 192 168 1 77) 29
     = [ipaddress.ipv4 192 168 1 73; ipaddress.ipv4 192 168 1 74;
        ipaddress.ipv4 192 168 1 75; ipaddress.ipv4 192 168 1 76;
        ipaddress.ipv4 192 168 1 77; ipaddress.ipv4 192 168 1 78]
  /\ (ipaddress.ipv4 192 168 1 72
       ∉ Recon_tool.discover_active_hosts_units ipaddress.IPv4
           (ipaddress.ipv4 192 168 1 77) 29)
  /\ (ipaddress.ipv4 192 168 1 79
       ∉ Recon_tool.discover_active_hosts_units ipaddress.IPv4
           (ipaddress.ipv4 192 168 1 77) 29).
Proof.
  assert (ipaddress.ip_network ipaddress.IPv4 (ipaddress.ipv4 192 168 1 77) 29
          = Some {| ipaddress.net_version := ipaddress.IPv4;
                    ipaddress.network_address := ipaddress.ipv4 192 168 1 72;
                    ipaddress.prefixlen := 29 |}) as H1 by reflexivity.
  assert (29 <= ipaddress.max_prefixlen ipaddress.IPv4 - 2) as H2
    by (vm_compute; discriminate).
  split; [exact H1|]. split; [exact H2|]. split; [reflexivity|].
  destruct (sweep_hosts _ _ _ _ H1) as (_ & _ & Hsmall & _).
  destruct (Hsmall H2) as (Hnet & Hbc & _).
  split; [exact Hnet|exact Hbc].
Defined.

(** C8 as stated fails on a /31 and on IPv6: both addresses of
    192.168.1.0/31, the network address and the broadcast address, are
    probed, and so is the last address of 2001:db8::/126. *)
Lemma sweep_hosts_counterexample :
  (exists n,
     ipaddress.ip_network ipaddress.IPv4 Samples.net_192_168_1_0 31 = Some n
     /\ Recon_tool.discover_active_hosts_units ipaddress.IPv4
          Samples.net_192_168_1_0 31
        = [ipaddress.network_address n; ipaddress.broadcast_address n]
     /\ Network_IP_Scanner.threaded_network_scan_units ipaddress.IPv4
          Samples.net_192_168_1_0 31
        = [ipaddress.network_address n; ipaddress.broadcast_address n]
     /\ ~ ((ipaddress.network_address n
             ∉ Recon_tool.discover_active_hosts_units ipaddress.IPv4
                 Samples.net_192_168_1_0 31)
           /\ (ipaddress.broadcast_address n
                ∉ Recon_tool.discover_active_hosts_units ipaddress.IPv4
                    Samples.net_192_168_1_0 31)))
  /\ (exists n,
       ipaddress.ip_network ipaddress.IPv6 Samples_more.net_2001_db8 126
       = Some n
       /\ Recon_tool.discover_active_hosts_units ipaddress.IPv6
            Samples_more.net_2001_db8 126
          = [ipaddress.network_address n + 1; ipaddress.network_address n + 2;
             ipaddress.broadcast_address n]
       /\ Network_IP_Scanner.threaded_network_scan_units ipaddress.IPv6
            Samples_more.net_2001_db8 126
          = [ipaddress.network_address n + 1; ipaddress.network_address n + 2;
             ipaddress.broadcast_address n]
       /\ ~ ((ipaddress.network_address n
               ∉ Recon_tool.discover_active_hosts_units ipaddress.IPv6
                   Samples_more.net_2001_db8 126)
             /\ (ipaddress.broadcast_address n
                  ∉ Recon_tool.discover_active_hosts_units ipaddress.IPv6
                      Samples_more.net_2001_db8 126))).
Proof.
  split.
  - eexists. split; [reflexivity|]. split; [reflexivity|].
    split; [reflexivity|].
    intros [Hnet _]. apply Hnet. vm_compute. apply list_elem_of_here.
  - eexists. split; [reflexivity|]. split; [vm_compute; reflexivity|].
    split; [vm_compute; reflexivity|].
    intros [_ Hbc]. apply Hbc. vm_compute.
    apply list_elem_of_further, list_elem_of_further, list_elem_of_here.
Qed.

(** * Further properties of the scripts *)

(** ** The port expander on any input *)

Section ExpanderMore.
Import Py Advanced.

Lemma Sorted_le_NoDup_lt (l : list Z) :
  Sorted Z.le l -> NoDup l -> Sorted Z.lt l.
Proof.
  intros Hs%Sorted_StronglySorted; [|intros x y z; lia].
  induction Hs as [|x l Hl IH Hx]; intros Hnd; [constructor|].
  apply NoDup_cons in Hnd as [Hnotin Hnd].
  constructor; [by apply IH|].
  destruct l as [|y l]; constructor.
  apply Forall_cons in Hx as [Hxy _].
  assert (x <> y) by (intros ->; apply Hnotin, list_elem_of_here).
  lia.
Qed.

Lemma NoDup_sorted (ports : gset Z) : NoDup (sorted ports).
Proof. unfold sorted. rewrite merge_sort_Permutation. apply NoDup_elements. Qed.

(** [sorted] of a set is strictly ascending. *)
Lemma Sorted_lt_sorted (ports : gset Z) : Sorted Z.lt (sorted ports).
Proof.
  apply Sorted_le_NoDup_lt; [|apply NoDup_sorted].
  unfold sorted. apply Sorted_merge_sort. intros x y. lia.
Qed.

Lemma sorted_empty : sorted ∅ = [].
Proof. unfold sorted. by rewrite elements_empty. Qed.

Lemma list_to_set_sorted (ports : gset Z) : list_to_set (sorted ports) = ports.
Proof.
  apply set_eq. intros p. by rewrite elem_of_list_to_set, elem_of_sorted.
Qed.

Lemma replace_app old new s t :
  replace old new (s +:+ t) = replace old new s +:+ replace old new t.
Proof.
  induction s as [|c s IH]; [done|].
  rewrite str_app_cons. simpl. by rewrite IH, str_app_cons.
Qed.

Lemma replace_replace old new s :
  replace old new (replace old new s) = replace old new s.
Proof.
  induction s as [|c s IH]; [done|]. simpl. rewrite IH. f_equal.
  unfold ascii_eqb. repeat case_bool_decide; congruence.
Qed.

(** Cutting at a whitespace character cuts the token list. *)
Lemma split_go_app_space s1 c s2 cur :
  is_space c = true ->
  split_go (s1 +:+ String c s2) cur = split_go s1 cur ++ split s2.
Proof.
  intros Hc. revert cur. induction s1 as [|d s1 IH]; intros cur.
  - rewrite str_app_nil_l. simpl. rewrite Hc. by destruct cur.
  - rewrite str_app_cons. simpl. destruct (is_space d).
    + rewrite IH. by destruct cur.
    + apply IH.
Qed.

Lemma split_app_space s1 c s2 :
  is_space c = true -> split (s1 +:+ String c s2) = split s1 ++ split s2.
Proof. apply split_go_app_space. Qed.

Lemma split_all_space s cur :
  str_all is_space s = true ->
  split_go s cur = match cur with EmptyString => [] | _ => [cur] end.
Proof.
  induction s as [|c s IH] in cur |- *; simpl; [done|].
  rewrite andb_true_iff. intros [-> Hs]. rewrite IH by done. by destruct cur.
Qed.

(** The loop on a set already filled: same error, and the same ports
    added. *)
Lemma parse_tokens_union tokens ports :
  parse_tokens tokens ports
  = match parse_tokens tokens ∅ with
    | inl e => inl e
    | inr added => inr (ports ∪ added)
    end.
Proof.
  revert ports. induction tokens as [|t tokens IH]; intros ports.
  - simpl. by rewrite (right_id_L ∅ (∪)).
  - cbn [parse_tokens]. destruct (str_in "-" t).
    + unfold range_token. destruct (split1 "-" t) as [|a [|b [|]]]; try done.
      destruct (int a) as [x|]; [|done]. destruct (int b) as [y|]; [|done].
      cbn [mbind option_bind].
      destruct (if x >? y then (y, x) else (x, y)) as [lo hi].
      destruct ((lo <? 1) || (hi >? 65535)); [done|].
      rewrite (IH (ports ∪ _)), (IH (∅ ∪ _)).
      destruct (parse_tokens tokens ∅); [done|].
      by rewrite (left_id_L ∅ (∪)), (assoc_L (∪)).
    + unfold port_token. destruct (int t) as [q|]; [|done].
      cbn [mbind option_bind].
      destruct ((q <? 1) || (q >? 65535)); [done|].
      rewrite (IH ({[q]} ∪ ports)), (IH ({[q]} ∪ ∅)).
      destruct (parse_tokens tokens ∅); [done|].
      by rewrite (right_id_L ∅ (∪)), (comm_L (∪) {[q]} ports), (assoc_L (∪)).
Qed.

Lemma parse_tokens_app t1 t2 ports :
  parse_tokens (t1 ++ t2) ports
  = match parse_tokens t1 ports with
    | inl e => inl e
    | inr ports' => parse_tokens t2 ports'
    end.
Proof.
  revert ports. induction t1 as [|t t1 IH]; intros ports; [done|].
  cbn [app parse_tokens]. destruct (str_in "-" t).
  - destruct (range_token t ports); [apply IH|done].
  - destruct (port_token t ports); [apply IH|done].
Qed.

(** [parse_ports] in terms of the loop on the empty set. *)
Lemma parse_ports_app_space s1 s2 :
  parse_ports (s1 +:+ " " +:+ s2)
  = match parse_ports s1, parse_ports s2 with
    | inl e, _ => inl e
    | inr _, inl e => inl e
    | inr l1, inr l2 => inr (sorted (list_to_set l1 ∪ list_to_set l2))
    end.
Proof.
  unfold parse_ports.
  rewrite str_app_cons, str_app_nil_l, replace_app. cbn [replace].
  replace (if ascii_eqb " " "," then " "%char else " "%char) with " "%char by done.
  rewrite split_app_space by done.
  rewrite parse_tokens_app.
  destruct (parse_tokens (split (replace "," " " s1)) ∅) as [e|set1]; [done|].
  rewrite parse_tokens_union.
  destruct (parse_tokens (split (replace "," " " s2)) ∅) as [e|set2]; [done|].
  by rewrite !list_to_set_sorted.
Qed.

End ExpanderMore.

(** X1. Whatever the input, a list returned by [parse_ports] is strictly
    ascending, holds no port twice and only ports from 1 to 65535. *)
Theorem parse_ports_sorted_unique (port_input : string) (ports : list Z) :
  Advanced.parse_ports port_input = inr ports ->
  Sorted Z.lt ports /\ NoDup ports /\ Forall Advanced.valid_port ports.
Proof.
  unfold Advanced.parse_ports.
  destruct (Advanced.parse_tokens _ ∅) as [e|set] eqn:Hset; [done|].
  intros [= <-]. split; [apply Sorted_lt_sorted|].
  split; [apply NoDup_sorted|].
  apply Forall_forall. intros p Hp%elem_of_sorted.
  by apply (parse_tokens_valid _ _ _ Hset).
Qed.

Lemma parse_ports_sorted_unique_witness :
  Advanced.parse_ports "443,80 22 80-82 22" = inr [22; 80; 81; 82; 443]
  /\ Sorted Z.lt [22; 80; 81; 82; 443] /\ NoDup [22; 80; 81; 82; 443]
  /\ Forall Advanced.valid_port [22; 80; 81; 82; 443].
Proof.
  assert (Advanced.parse_ports "443,80 22 80-82 22" = inr [22; 80; 81; 82; 443])
    as H1 by (vm_compute; reflexivity).
  exact (conj H1 (parse_ports_sorted_unique _ _ H1)).
Defined.

(** X2. An input made of whitespace and commas only, the empty input
    included, is not an error: [parse_ports] returns the empty list. *)
Theorem parse_ports_blank (port_input : string) :
  Py.str_all (fun c => Py.is_space c || Py.ascii_eqb c ",") port_input = true ->
  Advanced.parse_ports port_input = inr [].
Proof.
  intros Hblank. unfold Advanced.parse_ports, Py.split.
  rewrite split_all_space; [cbn; by rewrite sorted_empty|].
  induction port_input as [|c s IH]; [done|].
  simpl in *. apply andb_true_iff in Hblank as [Hc Hs].
  rewrite IH by done. rewrite andb_true_r.
  destruct (Py.ascii_eqb c ","); [done|]. by rewrite orb_false_r in Hc.
Qed.

Lemma parse_ports_blank_witness :
  Py.str_all (fun c => Py.is_space c || Py.ascii_eqb c ",") " , ,, " = true
  /\ Advanced.parse_ports " , ,, " = inr [].
Proof.
  assert (Py.str_all (fun c => Py.is_space c || Py.ascii_eqb c ",") " , ,, "
          = true) as H1 by reflexivity.
  exact (conj H1 (parse_ports_blank _ H1)).
Defined.

(** X3. Two inputs joined by a space or by a comma: [parse_ports] raises
    the error of the first part if it has one, else the error of the
    second, and otherwise returns the sorted union of the two results; the
    order of two valid parts does not matter. *)
Theorem parse_ports_join (s1 s2 : string) :
  Advanced.parse_ports (s1 +:+ " " +:+ s2)
  = match Advanced.parse_ports s1, Advanced.parse_ports s2 with
    | inl e, _ => inl e
    | inr _, inl e => inl e
    | inr l1, inr l2 => inr (Py.sorted (list_to_set l1 ∪ list_to_set l2))
    end
  /\ Advanced.parse_ports (s1 +:+ "," +:+ s2)
     = Advanced.parse_ports (s1 +:+ " " +:+ s2)
  /\ (forall l1 l2,
        Advanced.parse_ports s1 = inr l1 -> Advanced.parse_ports s2 = inr l2 ->
        Advanced.parse_ports (s1 +:+ " " +:+ s2)
        = Advanced.parse_ports (s2 +:+ " " +:+ s1)).
Proof.
  split; [apply parse_ports_app_space|]. split.
  - unfold Advanced.parse_ports.
    rewrite !str_app_cons, !str_app_nil_l, !replace_app. by cbn [Py.replace].
  - intros l1 l2 H1 H2. rewrite !parse_ports_app_space, H1, H2.
    by rewrite (comm_L (∪)).
Qed.

Lemma parse_ports_join_witness :
  Advanced.parse_ports "80-82" = inr [80; 81; 82]
  /\ Advanced.parse_ports "22,81" = inr [22; 81]
  /\ Advanced.parse_ports "80-82 22,81" = Advanced.parse_ports "22,81 80-82".
Proof.
  assert (Advanced.parse_ports "80-82" = inr [80; 81; 82]) as H1
    by (vm_compute; reflexivity).
  assert (Advanced.parse_ports "22,81" = inr [22; 81]) as H2
    by (vm_compute; reflexivity).
  exact (conj H1 (conj H2
    (proj2 (proj2 (parse_ports_join "80-82" "22,81")) _ _ H1 H2))).
Defined.

(** ** The callers of the engine in Mini_Port_Scanner_Advanced.py *)

Section CliFacts.
Import Py Advanced Advanced_cli.

Lemma Forall_valid_sorted_list (l : list Z) :
  Forall valid_port l -> Forall valid_port (sorted (list_to_set l)).
Proof.
  rewrite !Forall_forall. intros Hl p Hp%elem_of_sorted%elem_of_list_to_set.
  auto.
Qed.

Lemma main_max_workers_bounds line : 1 <= main_max_workers line <= 1000.
Proof. unfold main_max_workers. destruct (int _); lia. Qed.

(** The loop raises nothing but [KeyboardInterrupt]. *)
Lemma consume_exn completed interrupt acc e :
  consume completed interrupt acc = inl e -> e = KeyboardInterrupt.
Proof.
  revert interrupt acc.
  induction completed as [|[p r] completed IH]; intros interrupt acc; [done|].
  cbn [consume]. destruct interrupt as [[|i]|]; [by intros [= <-]|apply IH..].
Qed.

Section SortedBy.
Context {A : Type} (key : A -> Z).

Lemma insert_by_Permutation x l : PyMore.insert_by key x l ≡ₚ x :: l.
Proof.
  induction l as [|y l IH]; [done|]. simpl.
  destruct (key x <=? key y); [done|]. rewrite IH. apply Permutation_swap.
Qed.

Lemma sorted_by_Permutation l : PyMore.sorted_by key l ≡ₚ l.
Proof.
  induction l as [|x l IH]; [done|]. simpl.
  by rewrite insert_by_Permutation, IH.
Qed.

Lemma insert_by_Sorted x l :
  Sorted (fun a b => key a <= key b) l ->
  Sorted (fun a b => key a <= key b) (PyMore.insert_by key x l).
Proof.
  induction 1 as [|y l Hl IH Hhd]; simpl; [by repeat constructor|].
  destruct (Z.leb_spec (key x) (key y)) as [Hle|Hgt].
  - constructor; [by constructor|]. by constructor.
  - constructor; [done|].
    destruct Hhd as [|z l Hyz]; simpl.
    + constructor. lia.
    + destruct (key x <=? key z); constructor; lia.
Qed.

Lemma sorted_by_Sorted l :
  Sorted (fun a b => key a <= key b) (PyMore.sorted_by key l).
Proof.
  induction l as [|x l IH]; simpl; [constructor|]. by apply insert_by_Sorted.
Qed.

(** The sort is stable: the elements of one key keep their order. *)
Lemma insert_by_filter k x l :
  filter (fun a => key a = k) (PyMore.insert_by key x l)
  = filter (fun a => key a = k) (x :: l).
Proof.
  induction l as [|y l IH]; [done|]. simpl.
  destruct (Z.leb_spec (key x) (key y)) as [Hle|Hgt]; [done|].
  rewrite (filter_cons _ y), IH, !filter_cons.
  repeat case_decide; try done. lia.
Qed.

Lemma sorted_by_stable k l :
  filter (fun a => key a = k) (PyMore.sorted_by key l)
  = filter (fun a => key a = k) l.
Proof.
  induction l as [|x l IH]; [done|]. simpl.
  by rewrite insert_by_filter, !filter_cons, IH.
Qed.

End SortedBy.

End CliFacts.

(** X4. Whatever is answered to the two prompts of
    [choose_preset_or_custom], a port list it returns is strictly
    ascending (so without duplicates) and holds only ports from 1 to
    65535; answer 1 gives the 1024 ports from 1 to 1024. *)
Theorem choose_preset_or_custom_ports (choice_line ports_line : string)
    (ports : list Z) :
  Advanced_cli.choose_preset_or_custom choice_line ports_line = inr ports ->
  Sorted Z.lt ports
  /\ Forall Advanced.valid_port ports
  /\ (Py.strip choice_line = "1"%string ->
      length ports = 1024%nat /\ forall p, p ∈ ports <-> 1 <= p <= 1024).
Proof.
  unfold Advanced_cli.choose_preset_or_custom.
  repeat case_bool_decide.
  - intros [= <-]. split; [apply Sorted_lt_seqZ|]. split.
    + apply Forall_forall. intros p Hp%elem_of_seqZ.
      unfold Advanced.valid_port. lia.
    + intros _. split; [done|]. intros p. unfold Py.range.
      rewrite elem_of_seqZ. lia.
  - intros [= <-]. split; [apply Sorted_lt_sorted|]. split; [|done].
    apply (Forall_valid_sorted_list Advanced_cli.WEB_PRESET).
    repeat (constructor; [unfold Advanced.valid_port; lia|]). constructor.
  - intros [= <-]. split; [apply Sorted_lt_sorted|]. split; [|done].
    apply (Forall_valid_sorted_list Advanced_cli.COMMON_SERVICES).
    repeat (constructor; [unfold Advanced.valid_port; lia|]). constructor.
  - intros Hparse. split; [|split; [|done]].
    + unfold Advanced.parse_ports in Hparse.
      destruct (Advanced.parse_tokens _ ∅); [done|].
      injection Hparse as <-. apply Sorted_lt_sorted.
    + unfold Advanced.parse_ports in Hparse.
      destruct (Advanced.parse_tokens _ ∅) as [e|set] eqn:Hset; [done|].
      injection Hparse as <-.
      apply Forall_forall. intros p Hp%elem_of_sorted.
      by apply (parse_tokens_valid _ _ _ Hset).
Qed.

Lemma choose_preset_or_custom_ports_witness :
  Advanced_cli.choose_preset_or_custom " 2 " "ignored"
  = inr [80; 443; 8000; 8080; 8081; 8088; 8443; 8888]
  /\ Sorted Z.lt [80; 443; 8000; 8080; 8081; 8088; 8443; 8888]
  /\ Forall Advanced.valid_port [80; 443; 8000; 8080; 8081; 8088; 8443; 8888].
Proof.
  assert (Advanced_cli.choose_preset_or_custom " 2 " "ignored"
          = inr [80; 443; 8000; 8080; 8081; 8088; 8443; 8888]) as H1
    by (vm_compute; reflexivity).
  destruct (choose_preset_or_custom_ports _ _ _ H1) as (Hs & Hv & _).
  exact (conj H1 (conj Hs Hv)).
Defined.

(** X5. Whatever is answered to the worker prompt of [main], the worker
    count lies between 1 and 1000: it is 200 for a blank answer and for
    one that [int] refuses, be it no integer literal or one of more than
    4300 digits, and the answer clamped to 1..1000 otherwise. The scan started
    with it never fails on the pool size: it returns buckets or raises
    [KeyboardInterrupt]. *)
Theorem main_max_workers_clamped (line : string) (ports : list Z)
    (env : Advanced.run_env) :
  1 <= Advanced_cli.main_max_workers line <= 1000
  /\ (Py.int (Py.strip line) = None -> Advanced_cli.main_max_workers line = 200)
  /\ (forall n, Py.int (Py.strip line) = Some n ->
       Advanced_cli.main_max_workers line = Z.max 1 (Z.min 1000 n))
  /\ ((exists results,
         Advanced.outcome
           (Advanced.scan_ports_concurrent ports
              (Advanced_cli.main_max_workers line) env) = inr results)
      \/ Advanced.outcome
           (Advanced.scan_ports_concurrent ports
              (Advanced_cli.main_max_workers line) env)
         = inl Py.KeyboardInterrupt)
  /\ (Py.int_max_str_digits < Py.digit_count line ->
      Advanced_cli.main_max_workers line = 200).
Proof.
  split; [apply main_max_workers_bounds|].
  split; [|split; [|split]].
  - unfold Advanced_cli.main_max_workers. intros Hnone.
    destruct (Py.strip line) as [|c s]; [done|].
    cbn [PyMore.or_else]. by rewrite Hnone.
  - unfold Advanced_cli.main_max_workers. intros n Hn.
    destruct (Py.strip line) as [|c s]; [done|].
    cbn [PyMore.or_else]. by rewrite Hn.
  - pose proof (main_max_workers_bounds line) as Hb.
    unfold Advanced.scan_ports_concurrent.
    destruct (Z.leb_spec (Advanced_cli.main_max_workers line) 0); [lia|].
    destruct (Advanced.consume _ _ _) as [e|[o c]] eqn:Hrun.
    + right. simpl. f_equal. by eapply consume_exn.
    + left. by exists (o, c).
  - intros Hlong. pose proof (int_strip_too_long line Hlong) as Hnone.
    unfold Advanced_cli.main_max_workers.
    destruct (Py.strip line) as [|c s]; [done|].
    cbn [PyMore.or_else]. by rewrite Hnone.
Qed.

Lemma main_max_workers_clamped_witness :
  Py.int (Py.strip " 5000 ") = Some 5000
  /\ Advanced_cli.main_max_workers " 5000 " = 1000
  /\ Py.int (Py.strip "many") = None
  /\ Advanced_cli.main_max_workers "many" = 200
  /\ Advanced_cli.main_max_workers "-3" = 1
  /\ Advanced_cli.main_max_workers EmptyString = 200
  /\ Py.int_max_str_digits < Py.digit_count Samples_more.digits_4301
  /\ Advanced_cli.main_max_workers Samples_more.digits_4301 = 200.
Proof.
  assert (Py.int (Py.strip " 5000 ") = Some 5000) as H1 by reflexivity.
  assert (Py.int (Py.strip "many") = None) as H2 by reflexivity.
  assert (Py.int_max_str_digits < Py.digit_count Samples_more.digits_4301)
    as H3 by (vm_compute; reflexivity).
  split; [exact H1|].
  split; [exact (proj1 (proj2 (proj2
    (main_max_workers_clamped " 5000 " [] Samples.lab_run))) 5000 H1)|].
  split; [exact H2|].
  split; [exact (proj1 (proj2
    (main_max_workers_clamped "many" [] Samples.lab_run)) H2)|].
  split; [reflexivity|]. split; [reflexivity|]. split; [exact H3|].
  exact (proj2 (proj2 (proj2 (proj2
    (main_max_workers_clamped Samples_more.digits_4301 [] Samples.lab_run))))
    H3).
Defined.

(** X6. The rows of [export_csv]: eight rows of metadata and header, then
    one row for each open entry and, after them, one row for each closed
    entry; in both groups the rows follow the ports in ascending order and
    entries of the same port keep the order of the bucket. The last cell
    of a closed row is the error text, empty when there is none. *)
Theorem export_csv_rows (fmt3 float_str : float -> string)
    (md : Advanced_cli.metadata) (results : Advanced.buckets) :
  exists open_items closed_items,
    drop 8 (Advanced_cli.export_csv fmt3 float_str md results)
    = (Advanced_cli.open_row fmt3 <$> open_items)
        ++ (Advanced_cli.closed_row fmt3 <$> closed_items)
    /\ length (Advanced_cli.export_csv fmt3 float_str md results)
       = (8 + length results.1 + length results.2)%nat
    /\ open_items ≡ₚ results.1
    /\ closed_items ≡ₚ results.2
    /\ Sorted (fun a b => Advanced.o_port a <= Advanced.o_port b) open_items
    /\ Sorted (fun a b => Advanced.c_port a <= Advanced.c_port b) closed_items
    /\ (forall port,
         filter (fun a => Advanced.o_port a = port) open_items
         = filter (fun a => Advanced.o_port a = port) results.1)
    /\ (forall port,
         filter (fun a => Advanced.c_port a = port) closed_items
         = filter (fun a => Advanced.c_port a = port) results.2)
    /\ (forall item,
         item ∈ closed_items -> Advanced.c_error item = None ->
         Advanced_cli.closed_row fmt3 item !! 3%nat = Some EmptyString).
Proof.
  exists (PyMore.sorted_by Advanced.o_port results.1),
    (PyMore.sorted_by Advanced.c_port results.2).
  split; [done|]. split.
  - unfold Advanced_cli.export_csv.
    rewrite !length_app, !length_fmap.
    rewrite !(Permutation_length (sorted_by_Permutation _ _)). simpl. lia.
  - repeat split;
      auto using sorted_by_Permutation, sorted_by_Sorted, sorted_by_stable.
    intros item _ Herr. unfold Advanced_cli.closed_row. by rewrite Herr.
Qed.

Lemma export_csv_rows_witness :
  exists item,
    item ∈ [ {| Advanced.c_port := 23; Advanced.c_error := None;
                 Advanced.c_elapsed := 1 |} ]
    /\ Advanced.c_error item = None
    /\ exists open_items closed_items,
         drop 8 (Advanced_cli.export_csv (fun _ => "0.000"%string)
                   (fun _ => "1.0"%string)
                   {| Advanced_cli.host := "127.0.0.1";
                      Advanced_cli.started_at := "2026-01-01 00:00:00";
                      Advanced_cli.duration_sec := 1;
                      Advanced_cli.timeout := 1;
                      Advanced_cli.workers := 4;
                      Advanced_cli.scanned_ports_count := 1 |}
                   ([], [item]))
         = (Advanced_cli.open_row (fun _ => "0.000"%string) <$> open_items)
             ++ (Advanced_cli.closed_row (fun _ => "0.000"%string)
                   <$> closed_items)
         /\ closed_items ≡ₚ [item].
Proof.
  eexists. split; [apply list_elem_of_here|]. split; [reflexivity|].
  destruct (export_csv_rows (fun _ => "0.000"%string) (fun _ => "1.0"%string)
              {| Advanced_cli.host := "127.0.0.1";
                 Advanced_cli.started_at := "2026-01-01 00:00:00";
                 Advanced_cli.duration_sec := 1;
                 Advanced_cli.timeout := 1;
                 Advanced_cli.workers := 4;
                 Advanced_cli.scanned_ports_count := 1 |}
              ([], [ {| Advanced.c_port := 23; Advanced.c_error := None;
                        Advanced.c_elapsed := 1 |} ]))
    as (o & c & Hrows & _ & _ & Hc & _).
  exists o, c. split; [exact Hrows|exact Hc].
Defined.

(** X7. After a scan that is not interrupted, the CSV export holds exactly
    one data row for each scanned port: the port column of the data rows
    is a permutation of the decimal forms of the submitted ports. *)
Theorem export_csv_one_row_per_port (fmt3 float_str : float -> string)
    (md : Advanced_cli.metadata) (ports : list Z) (max_workers : Z)
    (env : Advanced.run_env) (results : Advanced.buckets) :
  1 <= max_workers ->
  (forall i, Advanced.interrupt env = Some i -> (length ports <= i)%nat) ->
  Advanced.outcome (Advanced.scan_ports_concurrent ports max_workers env)
  = inr results ->
  let data := drop 8 (Advanced_cli.export_csv fmt3 float_str md results) in
  length data = length ports
  /\ (fun row : list string => row !! 1%nat) <$> data
     ≡ₚ (fun p => Some (Py.str p)) <$> ports.
Proof.
  intros Hk Hint Hrun data.
  rewrite scan_uninterrupted in Hrun by done. cbn [Advanced.outcome] in Hrun.
  injection Hrun as <-. subst data. unfold Advanced_cli.export_csv.
  cbn [fst snd]. rewrite drop_app_length' by done.
  split.
  - rewrite length_app, !length_fmap.
    rewrite !(Permutation_length (sorted_by_Permutation _ _)).
    rewrite bind_length_one by apply outcome_of_unit_one.
    apply length_completed.
  - rewrite fmap_app, <- !list_fmap_compose.
    rewrite !sorted_by_Permutation.
    rewrite <- (submit_all_ports ports env) at 3.
    rewrite <- (as_completed_Permutation (Advanced.schedule env)
                 (Advanced.submit_all ports env)) at 3.
    rewrite <- bind_ports, fmap_app, <- !list_fmap_compose. done.
Qed.

Lemma export_csv_one_row_per_port_witness :
  1 <= 4
  /\ (forall i, Advanced.interrupt Samples.lab_run = Some i ->
        (length Samples.lab_ports <= i)%nat)
  /\ exists results,
       Advanced.outcome
         (Advanced.scan_ports_concurrent Samples.lab_ports 4 Samples.lab_run)
       = inr results
       /\ length (drop 8 (Advanced_cli.export_csv (fun _ => "0.000"%string)
                            (fun _ => "1.0"%string)
                            {| Advanced_cli.host := "127.0.0.1";
                               Advanced_cli.started_at := "2026-01-01 00:00:00";
                               Advanced_cli.duration_sec := 1;
                               Advanced_cli.timeout := 1;
                               Advanced_cli.workers := 4;
                               Advanced_cli.scanned_ports_count := 5 |}
                            results))
          = length Samples.lab_ports.
Proof.
  assert (1 <= 4) as H1 by (vm_compute; discriminate).
  assert (forall i, Advanced.interrupt Samples.lab_run = Some i ->
                    (length Samples.lab_ports <= i)%nat) as H2
    by (intros i Hi; discriminate Hi).
  split; [exact H1|]. split; [exact H2|].
  eexists. split; [vm_compute; reflexivity|].
  refine (proj1 (export_csv_one_row_per_port _ _ _ Samples.lab_ports 4
                   Samples.lab_run _ H1 H2 _)).
  vm_compute; reflexivity.
Defined.

(** ** The per-host port scan of the recon tool *)

Section ReconScanFacts.
Import Recon_run.

Lemma scan_port_true port sock :
  scan_port port sock = true
  <-> 0 <= port <= 65535 /\ sock = Recon_tool.ConnectCode 0.
Proof.
  unfold scan_port.
  destruct (Z.ltb_spec port 0), (Z.gtb_spec port 65535); simpl;
    try (split; [done|lia]).
  destruct sock as [code|text]; [|split; [done|by intros [_ ?]]].
  destruct (Z.eqb_spec code 0) as [->|Hne].
  - split; [intros _; split; [lia|done]|done].
  - split; [done|]. intros [_ [= ?]]. done.
Qed.

Lemma scan_ports_loop_acc ports i net open_ports :
  scan_ports_loop ports i net open_ports
  = open_ports ++ scan_ports_loop ports i net [].
Proof.
  revert i open_ports. induction ports as [|p ports IH]; intros i open_ports.
  - simpl. by rewrite app_nil_r.
  - cbn [scan_ports_loop]. destruct (scan_port p (net i)).
    + rewrite (IH _ (open_ports ++ [p])), (IH _ ([] ++ [p])).
      by rewrite <- app_assoc.
    + rewrite (IH _ open_ports). done.
Qed.

Lemma scan_ports_loop_cons p ports i net :
  scan_ports_loop (p :: ports) i net []
  = (if scan_port p (net i) then [p] else [])
      ++ scan_ports_loop ports (S i) net [].
Proof.
  cbn [scan_ports_loop]. rewrite scan_ports_loop_acc.
  by destruct (scan_port p (net i)).
Qed.

Lemma scan_ports_loop_sublist ports i net :
  scan_ports_loop ports i net [] `sublist_of` ports.
Proof.
  revert i. induction ports as [|p ports IH]; intros i; [done|].
  rewrite scan_ports_loop_cons.
  destruct (scan_port p (net i)); simpl.
  - by apply sublist_skip.
  - by apply sublist_cons.
Qed.

Lemma elem_of_scan_ports_loop ports i net p :
  p ∈ scan_ports_loop ports i net []
  <-> exists j, ports !! j = Some p /\ scan_port p (net (i + j)%nat) = true.
Proof.
  revert i. induction ports as [|q ports IH]; intros i.
  - simpl. split; [by intros ?%elem_of_nil|by intros (j & ? & _)].
  - rewrite scan_ports_loop_cons, elem_of_app, IH. split.
    + intros [Hhere|(j & Hj & Hopen)].
      * destruct (scan_port q (net i)) eqn:Hq; [|by apply elem_of_nil in Hhere].
        apply list_elem_of_singleton in Hhere as ->.
        exists 0%nat. by rewrite Nat.add_0_r.
      * exists (S j). split; [done|]. by rewrite Nat.add_succ_r.
    + intros ([|j] & Hj & Hopen).
      * left. injection Hj as ->. rewrite Nat.add_0_r in Hopen.
        rewrite Hopen. apply list_elem_of_here.
      * right. exists j. split; [done|]. by rewrite Nat.add_succ_r in Hopen.
Qed.

End ReconScanFacts.

Lemma scan_ports_for_host_sound ports net p :
  p ∈ Recon_run.scan_ports_for_host ports net ->
  exists j, ports !! j = Some p /\ 0 <= p <= 65535.
Proof.
  unfold Recon_run.scan_ports_for_host.
  intros (j & Hj & Hopen%scan_port_true)%elem_of_scan_ports_loop.
  exists j. tauto.
Qed.

(** X8. [scan_ports_for_host] returns the ports whose [connect_ex]
    returned 0, in the order of the port list and as often as they stand
    there: a port is returned exactly when some occurrence of it lies
    within 0..65535 and connected. A port outside 0..65535, or one whose
    socket raises, is never reported open. *)
Theorem scan_ports_for_host_open (ports : list Z)
    (net : nat -> Recon_tool.connect_outcome) :
  Recon_run.scan_ports_for_host ports net `sublist_of` ports
  /\ forall p,
       p ∈ Recon_run.scan_ports_for_host ports net
       <-> exists j, ports !! j = Some p /\ 0 <= p <= 65535
                    /\ net j = Recon_tool.ConnectCode 0.
Proof.
  split; [apply scan_ports_loop_sublist|].
  intros p. unfold Recon_run.scan_ports_for_host.
  rewrite elem_of_scan_ports_loop.
  split; intros (j & Hj & Hopen); exists j; (split; [done|]).
  - by apply scan_port_true in Hopen.
  - by apply scan_port_true.
Qed.

(** ** The ping sweeps *)

Section SweepFacts.
Variable ip_str : Z -> string.

Local Abbreviation up := (fun u : Z * (bool + string) => u.2 = inl true).
Local Abbreviation names l :=
  ((fun u : Z * (bool + string) => ip_str u.1) <$> l).

Lemma as_completed_nil {A} sched : Advanced.as_completed sched (@nil A) = [].
Proof. apply Permutation_nil_r, as_completed_Permutation. Qed.

Lemma recon_ping_future_up w :
  Recon_run.ping_future w = inl true
  <-> w = Recon_run.Pinged (Recon_tool.Completed 0).
Proof.
  destruct w as [[rc|text]|text]; simpl; try (split; done).
  destruct (Z.eqb_spec rc 0) as [->|Hne]; split; try done.
  intros [= ?]. done.
Qed.

Lemma network_ping_future_up w :
  Network_run.ping_future w = inl true
  <-> w = Network_run.Pinged (Network_IP_Scanner.Completed 0).
Proof.
  destruct w as [[rc|text]|text]; simpl; try (split; done).
  destruct (Z.eqb_spec rc 0) as [->|Hne]; split; try done.
  intros [= ?]. done.
Qed.

(** The hosts that answered, among the submitted ones. *)
Lemma recon_elem_of_up hosts env u :
  u ∈ filter up (Recon_run.ping_all hosts env)
  <-> exists i ip, hosts !! i = Some ip
        /\ Recon_run.ping env i = Recon_run.Pinged (Recon_tool.Completed 0)
        /\ u = (ip, inl true).
Proof.
  rewrite list_elem_of_filter, list_elem_of_lookup.
  unfold Recon_run.ping_all. split.
  - intros [Hup [i Hi]]. rewrite list_lookup_imap in Hi.
    destruct (hosts !! i) as [ip|] eqn:Hip; [|done].
    injection Hi as <-. simpl in Hup. exists i, ip.
    split; [done|]. split; [by apply recon_ping_future_up|by rewrite Hup].
  - intros (i & ip & Hip & Hping & ->). split; [done|].
    exists i. rewrite list_lookup_imap, Hip, Hping. done.
Qed.

Lemma network_elem_of_up hosts env u :
  u ∈ filter up (Network_run.ping_all hosts env)
  <-> exists i ip, hosts !! i = Some ip
        /\ Network_run.ping env i
           = Network_run.Pinged (Network_IP_Scanner.Completed 0)
        /\ u = (ip, inl true).
Proof.
  rewrite list_elem_of_filter, list_elem_of_lookup.
  unfold Network_run.ping_all. split.
  - intros [Hup [i Hi]]. rewrite list_lookup_imap in Hi.
    destruct (hosts !! i) as [ip|] eqn:Hip; [|done].
    injection Hi as <-. simpl in Hup. exists i, ip.
    split; [done|]. split; [by apply network_ping_future_up|by rewrite Hup].
  - intros (i & ip & Hip & Hping & ->). split; [done|].
    exists i. rewrite list_lookup_imap, Hip, Hping. done.
Qed.

Lemma names_cons_up (u : Z * (bool + string)) l acc :
  (match u.2 with
   | inl true => acc ++ [ip_str u.1]
   | inl false => acc
   | inr _ => acc
   end) ++ names (filter up l)
  = acc ++ names (filter up (u :: l)).
Proof.
  destruct u as [ip [[]|text]]; cbn [fst snd].
  - rewrite filter_cons_True by done. by rewrite fmap_cons, <- app_assoc.
  - by rewrite filter_cons_False by done.
  - by rewrite filter_cons_False by done.
Qed.

(** The loop of [discover_active_hosts] when no interrupt falls in it. *)
Lemma recon_collect_uninterrupted completed interrupt acc :
  (forall i, interrupt = Some i -> (length completed <= i)%nat) ->
  Recon_run.collect ip_str completed interrupt acc
  = Some (acc ++ names (filter up completed)).
Proof.
  revert interrupt acc.
  induction completed as [|[ip r] completed IH]; intros interrupt acc Hint.
  - simpl. by rewrite app_nil_r.
  - cbn [Recon_run.collect].
    destruct interrupt as [[|j]|].
    + specialize (Hint 0%nat eq_refl). simpl in Hint. lia.
    + rewrite IH.
      * f_equal. apply (names_cons_up (ip, r)).
      * intros i [= <-]. specialize (Hint (S j) eq_refl). simpl in Hint. lia.
    + rewrite IH by done. f_equal. apply (names_cons_up (ip, r)).
Qed.

Lemma recon_collect_interrupted completed i acc :
  (i < length completed)%nat ->
  Recon_run.collect ip_str completed (Some i) acc = None.
Proof.
  revert i acc. induction completed as [|[ip r] completed IH]; intros i acc Hi.
  - simpl in Hi. lia.
  - cbn [Recon_run.collect]. destruct i as [|i]; [done|].
    apply IH. simpl in Hi. lia.
Qed.

(** The loop of [threaded_network_scan]: the interrupt cuts the list of
    completed pings. *)
Lemma network_collect_take completed interrupt acc :
  Network_run.collect ip_str completed interrupt acc
  = acc ++ names (filter up
                    (from_option (fun i => take i completed) completed interrupt)).
Proof.
  revert interrupt acc.
  induction completed as [|[ip r] completed IH]; intros interrupt acc.
  - simpl. destruct interrupt as [i|]; simpl; by rewrite ?take_nil, app_nil_r.
  - cbn [Network_run.collect].
    destruct interrupt as [[|j]|]; simpl.
    + by rewrite app_nil_r.
    + rewrite IH. apply (names_cons_up (ip, r)).
    + rewrite IH. apply (names_cons_up (ip, r)).
Qed.

(** [discover_active_hosts] in one formula. *)
Lemma discover_active_hosts_spec v address prefix max_workers env :
  1 <= max_workers ->
  let hosts := Recon_tool.discover_active_hosts_units v address prefix in
  Recon_run.discover_active_hosts ip_str v address prefix max_workers env
  = inr (match Recon_run.interrupt env with
         | Some i =>
             if decide (i < length hosts)%nat then []
             else names (filter up
                           (Advanced.as_completed (Recon_run.schedule env)
                              (Recon_run.ping_all hosts env)))
         | None =>
             names (filter up
                      (Advanced.as_completed (Recon_run.schedule env)
                         (Recon_run.ping_all hosts env)))
         end).
Proof.
  intros Hk hosts. subst hosts.
  unfold Recon_run.discover_active_hosts, Recon_tool.discover_active_hosts_units.
  destruct (ipaddress.ip_network v address prefix) as [n|].
  2:{ cbn [Recon_run.ping_all imap]. rewrite as_completed_nil.
      by destruct (Recon_run.interrupt env) as [i|]; [case_decide|]. }
  destruct (ipaddress.hosts n) as [|h hosts] eqn:Hhosts.
  { cbn [Recon_run.ping_all imap]. rewrite as_completed_nil.
    by destruct (Recon_run.interrupt env) as [i|]; [case_decide|]. }
  destruct (Z.leb_spec max_workers 0); [lia|].
  assert (length (Advanced.as_completed (Recon_run.schedule env)
                    (Recon_run.ping_all (h :: hosts) env))
          = length (h :: hosts)) as Hlen.
  { rewrite as_completed_Permutation. apply length_imap. }
  destruct (Recon_run.interrupt env) as [i|].
  - case_decide.
    + by rewrite recon_collect_interrupted by by rewrite Hlen.
    + rewrite recon_collect_uninterrupted; [done|].
      intros j [= <-]. rewrite Hlen. lia.
  - by rewrite recon_collect_uninterrupted by done.
Qed.

End SweepFacts.

Section SummaryFacts.
Context {V : Type}.

Lemma elem_of_dict_set (k k0 : string) (v v0 : V) d :
  (k, v) ∈ PyMore.dict_set k0 v0 d -> (k, v) = (k0, v0) \/ (k, v) ∈ d.
Proof.
  induction d as [|[k' v'] d IH]; simpl.
  - intros ->%list_elem_of_singleton. by left.
  - case_bool_decide.
    + intros [->|Hin]%elem_of_cons; [by left|].
      right. by apply list_elem_of_further.
    + intros [->|Hin]%elem_of_cons; [right; apply list_elem_of_here|].
      destruct (IH Hin) as [?|?]; [by left|].
      right. by apply list_elem_of_further.
Qed.

Lemma dict_set_keys (k0 : string) (v0 : V) d :
  (PyMore.dict_set k0 v0 d).*1
  = if decide (k0 ∈ d.*1) then d.*1 else d.*1 ++ [k0].
Proof.
  induction d as [|[k' v'] d IH].
  - case_decide as Hin; [by apply elem_of_nil in Hin|done].
  - cbn [PyMore.dict_set]. case_bool_decide as Hk.
    + subst k'. rewrite !fmap_cons. cbn [fst].
      by rewrite decide_True by apply list_elem_of_here.
    + rewrite !fmap_cons, IH. cbn [fst].
      destruct (decide (k0 ∈ d.*1)) as [Hin|Hnotin].
      * by rewrite decide_True by by apply list_elem_of_further.
      * rewrite decide_False; [done|].
        intros [?|?]%elem_of_cons; congruence.
Qed.

Lemma dict_set_NoDup (k0 : string) (v0 : V) d :
  NoDup d.*1 -> NoDup (PyMore.dict_set k0 v0 d).*1.
Proof.
  intros Hd. rewrite dict_set_keys. case_decide; [done|].
  apply NoDup_app. split; [done|]. split; [|apply NoDup_singleton].
  intros k Hk ->%list_elem_of_singleton. done.
Qed.

End SummaryFacts.

Section GlueFacts.
Variable ip_str : Z -> string.

Lemma scan_hosts_elem active_hosts h ports net summary host open_ports :
  (host, open_ports) ∈ Recon_run.scan_hosts active_hosts h ports net summary ->
  (host, open_ports) ∈ summary
  \/ (host ∈ active_hosts
      /\ exists h', open_ports = Recon_run.scan_ports_for_host ports (net h')).
Proof.
  revert h summary.
  induction active_hosts as [|a active_hosts IH]; intros h summary; [by left|].
  cbn [Recon_run.scan_hosts]. intros Hin.
  destruct (IH _ _ Hin) as [Hset|[Hhost Hports]].
  - destruct (elem_of_dict_set _ _ _ _ _ Hset) as [[= -> ->]|?]; [|by left].
    right. split; [apply list_elem_of_here|by exists h].
  - right. split; [by apply list_elem_of_further|done].
Qed.

Lemma scan_hosts_NoDup active_hosts h ports net summary :
  NoDup summary.*1 ->
  NoDup (Recon_run.scan_hosts active_hosts h ports net summary).*1.
Proof.
  revert h summary.
  induction active_hosts as [|a active_hosts IH]; intros h summary; [done|].
  cbn [Recon_run.scan_hosts]. intros Hnd. by apply IH, dict_set_NoDup.
Qed.

Lemma recon_prompt_max_workers_bounds line :
  1 <= Recon_run.prompt_max_workers line <= 500.
Proof. unfold Recon_run.prompt_max_workers. destruct (Py.int _); lia. Qed.

(** The hosts [discover_active_hosts] returns answered their ping, in any
    run. *)
Lemma discover_active_hosts_sound v address prefix max_workers env active s :
  1 <= max_workers ->
  Recon_run.discover_active_hosts ip_str v address prefix max_workers env
  = inr active ->
  s ∈ active ->
  exists i ip,
    Recon_tool.discover_active_hosts_units v address prefix !! i = Some ip
    /\ Recon_run.ping env i = Recon_run.Pinged (Recon_tool.Completed 0)
    /\ s = ip_str ip.
Proof.
  intros Hk. rewrite discover_active_hosts_spec by done. intros [= <-] Hs.
  assert (s ∈ (fun u : Z * (bool + string) => ip_str u.1)
              <$> filter (fun u : Z * (bool + string) => u.2 = inl true)
                    (Advanced.as_completed (Recon_run.schedule env)
                       (Recon_run.ping_all
                          (Recon_tool.discover_active_hosts_units v address prefix)
                          env))) as Hin.
  { destruct (Recon_run.interrupt env) as [i|]; [|done].
    case_decide; [by apply elem_of_nil in Hs|done]. }
  apply list_elem_of_fmap in Hin as (u & -> & Hu).
  rewrite as_completed_Permutation in Hu.
  apply recon_elem_of_up in Hu as (i & ip & Hip & Hping & ->).
  by exists i, ip.
Qed.

End GlueFacts.

(** X9. A sweep of [discover_active_hosts] that is not interrupted returns
    the hosts of the subnet whose ping ended with return code 0, each as
    often as it was submitted and no other: a host whose ping ended with
    another code or could not be run is left out. *)
Theorem discover_active_hosts_answered (ip_str : Z -> string)
    (v : ipaddress.version) (address prefix max_workers : Z)
    (env : Recon_run.sweep_env) :
  1 <= max_workers ->
  (forall i, Recon_run.interrupt env = Some i ->
     (length (Recon_tool.discover_active_hosts_units v address prefix) <= i)%nat) ->
  exists active_hosts,
    Recon_run.discover_active_hosts ip_str v address prefix max_workers env
    = inr active_hosts
    /\ active_hosts
       ≡ₚ (fun u : Z * (bool + string) => ip_str u.1)
          <$> filter (fun u : Z * (bool + string) => u.2 = inl true)
                (Recon_run.ping_all
                   (Recon_tool.discover_active_hosts_units v address prefix) env)
    /\ forall s,
         s ∈ active_hosts
         <-> exists i ip,
               Recon_tool.discover_active_hosts_units v address prefix !! i
               = Some ip
               /\ Recon_run.ping env i
                  = Recon_run.Pinged (Recon_tool.Completed 0)
               /\ s = ip_str ip.
Proof.
  intros Hk Hint. rewrite discover_active_hosts_spec by done.
  eexists. split; [reflexivity|].
  assert (forall l : list string,
            match Recon_run.interrupt env with
            | Some i =>
                if decide (i < length (Recon_tool.discover_active_hosts_units
                                         v address prefix))%nat
                then [] else l
            | None => l
            end = l) as Hsame.
  { intros l. destruct (Recon_run.interrupt env) as [i|]; [|done].
    case_decide; [|done]. specialize (Hint i eq_refl). lia. }
  rewrite Hsame. split.
  - by rewrite as_completed_Permutation.
  - intros s. rewrite list_elem_of_fmap. split.
    + intros (u & -> & Hu). rewrite as_completed_Permutation in Hu.
      apply recon_elem_of_up in Hu as (i & ip & Hip & Hping & ->).
      by exists i, ip.
    + intros (i & ip & Hip & Hping & ->). exists (ip, inl true).
      split; [done|]. rewrite as_completed_Permutation.
      apply recon_elem_of_up. by exists i, ip.
Qed.

Lemma discover_active_hosts_answered_witness :
  1 <= 100
  /\ (forall i, Recon_run.interrupt Samples_sweep.recon_sweep = Some i ->
        (length (Recon_tool.discover_active_hosts_units ipaddress.IPv4
                   Samples_sweep.lan_address 30) <= i)%nat)
  /\ Recon_run.discover_active_hosts Samples_sweep.dotted ipaddress.IPv4
       Samples_sweep.lan_address 30 100 Samples_sweep.recon_sweep
     = inr ["10.0.0.5"%string]
  /\ exists active_hosts,
       Recon_run.discover_active_hosts Samples_sweep.dotted ipaddress.IPv4
         Samples_sweep.lan_address 30 100 Samples_sweep.recon_sweep
       = inr active_hosts
       /\ forall s,
            s ∈ active_hosts
            <-> exists i ip,
                  Recon_tool.discover_active_hosts_units ipaddress.IPv4
                    Samples_sweep.lan_address 30 !! i = Some ip
                  /\ Recon_run.ping Samples_sweep.recon_sweep i
                     = Recon_run.Pinged (Recon_tool.Completed 0)
                  /\ s = Samples_sweep.dotted ip.
Proof.
  assert (1 <= 100) as H1 by (vm_compute; discriminate).
  assert (forall i, Recon_run.interrupt Samples_sweep.recon_sweep = Some i ->
            (length (Recon_tool.discover_active_hosts_units ipaddress.IPv4
                       Samples_sweep.lan_address 30) <= i)%nat) as H2
    by (intros i Hi; discriminate Hi).
  split; [exact H1|]. split; [exact H2|]. split; [vm_compute; reflexivity|].
  destruct (discover_active_hosts_answered Samples_sweep.dotted ipaddress.IPv4
              Samples_sweep.lan_address 30 100 Samples_sweep.recon_sweep H1 H2)
    as (active & Hrun & _ & Hmem).
  exists active. split; [exact Hrun|exact Hmem].
Defined.

(** X10. A sweep of [discover_active_hosts] interrupted inside its loop
    returns the empty list, whatever hosts had already answered; the glue
    [network_and_port_scanner] then ends with no active host and scans no
    port, whatever is typed. *)
Theorem discover_active_hosts_interrupted (ip_str : Z -> string)
    (v : ipaddress.version) (address prefix max_workers : Z)
    (env : Recon_run.sweep_env) (i : nat) :
  1 <= max_workers ->
  Recon_run.interrupt env = Some i ->
  (i < length (Recon_tool.discover_active_hosts_units v address prefix))%nat ->
  Recon_run.discover_active_hosts ip_str v address prefix max_workers env
  = inr []
  /\ forall workers_line ports_line net,
       Recon_run.network_and_port_scanner ip_str v address prefix workers_line
         env ports_line net
       = inr Recon_run.NoActiveHosts.
Proof.
  intros Hk Hint Hi.
  assert (forall k, 1 <= k ->
            Recon_run.discover_active_hosts ip_str v address prefix k env
            = inr []) as Hempty.
  { intros k Hk'. rewrite discover_active_hosts_spec, Hint by done.
    by rewrite decide_True by done. }
  split; [by apply Hempty|].
  intros workers_line ports_line net.
  unfold Recon_run.network_and_port_scanner.
  rewrite Hempty; [done|]. apply recon_prompt_max_workers_bounds.
Qed.

Lemma discover_active_hosts_interrupted_witness :
  1 <= 100
  /\ Recon_run.interrupt Samples_sweep.recon_sweep_interrupted = Some 1%nat
  /\ (1 < length (Recon_tool.discover_active_hosts_units ipaddress.IPv4
                    Samples_sweep.lan_address 30))%nat
  /\ Recon_run.discover_active_hosts Samples_sweep.dotted ipaddress.IPv4
       Samples_sweep.lan_address 30 100 Samples_sweep.recon_sweep_interrupted
     = inr [].
Proof.
  assert (1 <= 100) as H1 by (vm_compute; discriminate).
  assert (Recon_run.interrupt Samples_sweep.recon_sweep_interrupted
          = Some 1%nat) as H2 by reflexivity.
  assert (1 < length (Recon_tool.discover_active_hosts_units ipaddress.IPv4
                        Samples_sweep.lan_address 30))%nat as H3
    by (vm_compute; constructor).
  exact (conj H1 (conj H2 (conj H3
    (proj1 (discover_active_hosts_interrupted Samples_sweep.dotted
              ipaddress.IPv4 Samples_sweep.lan_address 30 100
              Samples_sweep.recon_sweep_interrupted 1 H1 H2 H3))))).
Defined.

(** X11. [threaded_network_scan] lists in its summary the hosts that
    answered among the pings handled before the interrupt, or among all of
    them when there is none: an interrupt keeps what was found, the list
    is the beginning of the list of the run without the interrupt, every
    listed host answered its ping with return code 0, and a run that is
    not interrupted lists exactly the hosts that answered. *)
Theorem threaded_network_scan_found (ip_str : Z -> string)
    (v : ipaddress.version) (address prefix : Z) (env : Network_run.sweep_env) :
  let units := Network_IP_Scanner.threaded_network_scan_units v address prefix in
  let completed :=
    Advanced.as_completed (Network_run.schedule env)
      (Network_run.ping_all units env) in
  units <> [] ->
  exists active_hosts,
    Network_run.threaded_network_scan ip_str v address prefix env
    = Some active_hosts
    /\ active_hosts
       = (fun u : Z * (bool + string) => ip_str u.1)
         <$> filter (fun u : Z * (bool + string) => u.2 = inl true)
               (from_option (fun i => take i completed) completed
                  (Network_run.interrupt env))
    /\ active_hosts
         `prefix_of` ((fun u : Z * (bool + string) => ip_str u.1)
                      <$> filter (fun u : Z * (bool + string) => u.2 = inl true)
                            completed)
    /\ (forall s, s ∈ active_hosts ->
         exists i ip,
           units !! i = Some ip
           /\ Network_run.ping env i
              = Network_run.Pinged (Network_IP_Scanner.Completed 0)
           /\ s = ip_str ip)
    /\ ((forall i, Network_run.interrupt env = Some i ->
           (length units <= i)%nat) ->
        active_hosts
        ≡ₚ (fun u : Z * (bool + string) => ip_str u.1)
           <$> filter (fun u : Z * (bool + string) => u.2 = inl true)
                 (Network_run.ping_all units env)).
Proof.
  intros units completed Hunits.
  assert (completed
          = Advanced.as_completed (Network_run.schedule env)
              (Network_run.ping_all units env)) as Hcompleted by reflexivity.
  clearbody completed.
  assert (Network_run.threaded_network_scan ip_str v address prefix env
          = Some (Network_run.collect ip_str completed
                    (Network_run.interrupt env) [])) as Hrun.
  { subst completed units.
    unfold Network_run.threaded_network_scan,
      Network_IP_Scanner.threaded_network_scan_units in *.
    destruct (ipaddress.ip_network v address prefix) as [n|]; [|done].
    by destruct (ipaddress.hosts n). }
  rewrite Hrun, network_collect_take, app_nil_l.
  eexists. split; [reflexivity|]. split; [reflexivity|].
  assert (from_option (fun i => take i completed) completed
            (Network_run.interrupt env) `prefix_of` completed) as [k Hk].
  { destruct (Network_run.interrupt env) as [i|]; [apply prefix_take|done]. }
  split; [|split].
  - rewrite Hk at 2. rewrite filter_app, fmap_app. by eexists.
  - intros s (u & -> & Hu)%list_elem_of_fmap.
    assert (u ∈ filter (fun u : Z * (bool + string) => u.2 = inl true)
                  (Network_run.ping_all units env)) as Hin.
    { rewrite <- (as_completed_Permutation (Network_run.schedule env)
                   (Network_run.ping_all units env)).
      rewrite <- Hcompleted, Hk, filter_app. apply elem_of_app. by left. }
    apply network_elem_of_up in Hin as (i & ip & Hip & Hping & ->).
    by exists i, ip.
  - intros Hint.
    assert (from_option (fun i => take i completed) completed
              (Network_run.interrupt env) = completed) as ->.
    { destruct (Network_run.interrupt env) as [i|]; [|done]. simpl.
      apply take_ge. rewrite Hcompleted.
      rewrite as_completed_Permutation. unfold Network_run.ping_all.
      rewrite length_imap. by apply Hint. }
    rewrite Hcompleted. by rewrite as_completed_Permutation.
Qed.

Lemma threaded_network_scan_found_witness :
  Network_IP_Scanner.threaded_network_scan_units ipaddress.IPv4
    Samples_sweep.lan_address 30 <> []
  /\ Network_run.threaded_network_scan Samples_sweep.dotted ipaddress.IPv4
       Samples_sweep.lan_address 30 Samples_sweep.network_sweep_interrupted
     = Some ["10.0.0.5"%string]
  /\ exists active_hosts,
       Network_run.threaded_network_scan Samples_sweep.dotted ipaddress.IPv4
         Samples_sweep.lan_address 30 Samples_sweep.network_sweep_interrupted
       = Some active_hosts
       /\ forall s, s ∈ active_hosts ->
            exists i ip,
              Network_IP_Scanner.threaded_network_scan_units ipaddress.IPv4
                Samples_sweep.lan_address 30 !! i = Some ip
              /\ Network_run.ping Samples_sweep.network_sweep_interrupted i
                 = Network_run.Pinged (Network_IP_Scanner.Completed 0)
              /\ s = Samples_sweep.dotted ip.
Proof.
  assert (Network_IP_Scanner.threaded_network_scan_units ipaddress.IPv4
            Samples_sweep.lan_address 30 <> []) as H1
    by (vm_compute; discriminate).
  split; [exact H1|]. split; [vm_compute; reflexivity|].
  destruct (threaded_network_scan_found Samples_sweep.dotted ipaddress.IPv4
              Samples_sweep.lan_address 30
              Samples_sweep.network_sweep_interrupted H1)
    as (active & Hrun & _ & _ & Hsound & _).
  exists active. split; [exact Hrun|exact Hsound].
Defined.

(** X12. [network_and_port_scanner] never raises on the pool size. In the
    summary it builds, every host stands once and answered its ping with
    return code 0, and every port listed as open for it lies within
    0..65535 and was typed in the port prompt as a token that [int]
    reads as that port. *)
Theorem network_and_port_scanner_summary (ip_str : Z -> string)
    (v : ipaddress.version) (address prefix : Z) (workers_line : string)
    (env : Recon_run.sweep_env) (ports_line : string)
    (net : nat -> nat -> Recon_tool.connect_outcome) :
  exists ending,
    Recon_run.network_and_port_scanner ip_str v address prefix workers_line
      env ports_line net
    = inr ending
    /\ forall summary,
         ending = Recon_run.Summary summary ->
         NoDup summary.*1
         /\ forall host open_ports,
              (host, open_ports) ∈ summary ->
              (exists i ip,
                 Recon_tool.discover_active_hosts_units v address prefix !! i
                 = Some ip
                 /\ Recon_run.ping env i
                    = Recon_run.Pinged (Recon_tool.Completed 0)
                 /\ host = ip_str ip)
              /\ forall p,
                   p ∈ open_ports ->
                   0 <= p <= 65535
                   /\ exists token,
                        token ∈ Py.split (Py.strip ports_line)
                        /\ Py.int token = Some p.
Proof.
  pose proof (recon_prompt_max_workers_bounds workers_line) as [Hk _].
  unfold Recon_run.network_and_port_scanner.
  destruct (Recon_run.discover_active_hosts ip_str v address prefix
              (Recon_run.prompt_max_workers workers_line) env)
    as [e|active] eqn:Hsweep.
  { rewrite discover_active_hosts_spec in Hsweep by done.
    cbv zeta in Hsweep. discriminate Hsweep. }
  destruct active as [|a active]; [by eexists|].
  destruct (Recon_tool.parse_ports_simple (Py.strip ports_line))
    as [e|ports] eqn:Hports; [by eexists|].
  assert (NoDup (Recon_run.scan_hosts (a :: active) 0 ports net []).*1) as Hnd
    by apply scan_hosts_NoDup, NoDup_nil_2.
  assert (forall host open_ports,
            (host, open_ports)
              ∈ Recon_run.scan_hosts (a :: active) 0 ports net [] ->
            host ∈ a :: active
            /\ exists h', open_ports
                          = Recon_run.scan_ports_for_host ports (net h'))
    as Helem.
  { intros host open_ports [Hnil|?]%scan_hosts_elem; [|done].
    by apply elem_of_nil in Hnil. }
  generalize dependent (Recon_run.scan_hosts (a :: active) 0 ports net []).
  intros result Hnd Helem.
  exists (Recon_run.Summary result). split; [reflexivity|].
  intros summary [= <-]. split; [done|].
  intros host open_ports Hin.
  destruct (Helem _ _ Hin) as [Hhost [h' ->]].
  split.
  - by eapply discover_active_hosts_sound.
  - intros p Hp.
    apply scan_ports_for_host_sound in Hp as (j & Hj & Hrange).
    split; [done|].
    destruct (parse_ports_simple_loop_sound _ _ _ p Hports) as [Hnil|Htok].
    + by eapply list_elem_of_lookup_2.
    + by apply elem_of_nil in Hnil.
    + done.
Qed.

Lemma network_and_port_scanner_summary_witness :
  Recon_run.network_and_port_scanner Samples_sweep.dotted ipaddress.IPv4
    Samples_sweep.lan_address 30 EmptyString Samples_sweep.recon_sweep
    " 22 80 99999" Samples_sweep.all_open
  = inr (Recon_run.Summary [("10.0.0.5"%string, [22; 80])])
  /\ forall p,
       p ∈ [22; 80] ->
       0 <= p <= 65535
       /\ exists token,
            token ∈ Py.split (Py.strip " 22 80 99999")
            /\ Py.int token = Some p.
Proof.
  assert (Recon_run.network_and_port_scanner Samples_sweep.dotted
            ipaddress.IPv4 Samples_sweep.lan_address 30 EmptyString
            Samples_sweep.recon_sweep " 22 80 99999" Samples_sweep.all_open
          = inr (Recon_run.Summary [("10.0.0.5"%string, [22; 80])])) as H1
    by (vm_compute; reflexivity).
  split; [exact H1|].
  destruct (network_and_port_scanner_summary Samples_sweep.dotted
              ipaddress.IPv4 Samples_sweep.lan_address 30 EmptyString
              Samples_sweep.recon_sweep " 22 80 99999" Samples_sweep.all_open)
    as (ending & Hrun & Hsummary).
  rewrite H1 in Hrun. injection Hrun as <-.
  destruct (Hsummary _ eq_refl) as [_ Hall].
  exact (proj2 (Hall "10.0.0.5"%string [22; 80] (list_elem_of_here _ _))).
Defined.

(** ** The TCP/UDP script *)

Section ScriptFacts.
Import Recon_tool Tcp_udp_script.

Lemma is_port_open_valid protocol ty net :
  (protocol = "TCP"%string /\ ty = SOCK_STREAM)
  \/ (protocol = "UDP"%string /\ ty = SOCK_DGRAM) ->
  is_port_open protocol net
  = match net ty with
    | ConnectCode result => inr (bool_decide (result = 0))
    | ConnectRaises text => inl (Py.OtherException text)
    end.
Proof.
  unfold is_port_open. intros [[-> ->]|[-> ->]].
  - rewrite bool_decide_eq_true_2 by done.
    destruct (net _) as [code|text]; [|done].
    destruct (Z.eqb_spec code 0);
      [by rewrite bool_decide_eq_true_2|by rewrite bool_decide_eq_false_2].
  - rewrite bool_decide_eq_false_2, bool_decide_eq_true_2 by done.
    destruct (net _) as [code|text]; [|done].
    destruct (Z.eqb_spec code 0);
      [by rewrite bool_decide_eq_true_2|by rewrite bool_decide_eq_false_2].
Qed.

(** The loop stops at the first port whose [connect_ex] raises; up to
    there it announces the ports that connected. *)
Lemma scan_loop_spec protocol ty net ports printed :
  (protocol = "TCP"%string /\ ty = SOCK_STREAM)
  \/ (protocol = "UDP"%string /\ ty = SOCK_DGRAM) ->
  exists k,
    (k <= length ports)%nat
    /\ (scan_loop ports protocol net printed).1
       = printed ++ filter (fun p => net p ty = ConnectCode 0) (take k ports)
    /\ (forall p, p ∈ take k ports ->
         forall text, net p ty <> ConnectRaises text)
    /\ match (scan_loop ports protocol net printed).2 with
       | None => k = length ports
       | Some e =>
           exists q text,
             ports !! k = Some q /\ net q ty = ConnectRaises text
             /\ e = Py.OtherException text
       end.
Proof.
  intros Hproto. revert printed.
  induction ports as [|p ports IH]; intros printed.
  - exists 0%nat. simpl. rewrite app_nil_r.
    repeat split; try done. by intros p ?%elem_of_nil.
  - cbn [scan_loop]. rewrite (is_port_open_valid _ ty) by done.
    destruct (net p ty) as [code|text] eqn:Hp.
    + assert (exists k,
                (k <= length ports)%nat
                /\ (scan_loop ports protocol net
                      (if bool_decide (code = 0) then printed ++ [p]
                       else printed)).1
                   = printed
                       ++ filter (fun p => net p ty = ConnectCode 0)
                            (p :: take k ports)
                /\ (forall q, q ∈ take k ports ->
                     forall text, net q ty <> ConnectRaises text)
                /\ match (scan_loop ports protocol net
                            (if bool_decide (code = 0) then printed ++ [p]
                             else printed)).2 with
                   | None => k = length ports
                   | Some e =>
                       exists q text,
                         ports !! k = Some q /\ net q ty = ConnectRaises text
                         /\ e = Py.OtherException text
                   end) as (k & Hk & Hfst & Hclean & Hsnd).
      { destruct (IH (if bool_decide (code = 0) then printed ++ [p]
                      else printed)) as (k & Hk & Hfst & Hclean & Hsnd).
        exists k. split; [done|]. split; [|done].
        rewrite Hfst. case_bool_decide as Hcode.
        - subst code. rewrite filter_cons_True by done.
          by rewrite <- app_assoc.
        - rewrite filter_cons_False; [done|]. rewrite Hp. congruence. }
      exists (S k). split; [simpl; lia|].
      destruct (bool_decide (code = 0));
        (split; [exact Hfst|]; split;
         [intros q Hq; cbn [take] in Hq;
          apply elem_of_cons in Hq as [->|Hq];
          [rewrite Hp; congruence|by apply Hclean]
         |destruct (scan_loop _ _ _ _).2;
          [exact Hsnd|simpl; by rewrite Hsnd]]).
    + exists 0%nat. simpl. rewrite app_nil_r.
      split; [lia|]. split; [done|]. split; [by intros q ?%elem_of_nil|].
      by exists p, text.
Qed.

End ScriptFacts.

(** X13. With a protocol that is not exactly [TCP] or [UDP] (lower case,
    a trailing blank, anything else) the script stops at its first port
    with [ValueError("Invalid protocol")]: nothing is probed and nothing
    is announced. *)
Theorem script_invalid_protocol (protocol : string)
    (net : Z -> Recon_tool.socket_type -> Recon_tool.connect_outcome) :
  protocol <> "TCP"%string -> protocol <> "UDP"%string ->
  Tcp_udp_script.script protocol net
  = ([], Some (Py.ValueError "Invalid protocol"))
  /\ forall port,
       Recon_tool.is_port_open protocol (net port)
       = inl (Py.ValueError "Invalid protocol").
Proof.
  intros Htcp Hudp.
  assert (forall port,
            Recon_tool.is_port_open protocol (net port)
            = inl (Py.ValueError "Invalid protocol")) as Hraise.
  { intros port. unfold Recon_tool.is_port_open.
    by rewrite !bool_decide_eq_false_2 by done. }
  split; [|done].
  unfold Tcp_udp_script.script, Py.range.
  rewrite seqZ_cons by done. cbn [Tcp_udp_script.scan_loop].
  by rewrite Hraise.
Qed.

Lemma script_invalid_protocol_witness :
  "udp"%string <> "TCP"%string /\ "udp"%string <> "UDP"%string
  /\ Tcp_udp_script.script "udp" Samples_sweep.flaky_net
     = ([], Some (Py.ValueError "Invalid protocol")).
Proof.
  assert ("udp"%string <> "TCP"%string) as H1 by discriminate.
  assert ("udp"%string <> "UDP"%string) as H2 by discriminate.
  exact (conj H1 (conj H2
    (proj1 (script_invalid_protocol "udp" Samples_sweep.flaky_net H1 H2)))).
Defined.

(** X14. With protocol [TCP] or [UDP] the script probes the ports from 20
    upwards, 442 being the last one and 443 never probed, and stops at the
    first port whose [connect_ex] raises, with that exception. It
    announces, in ascending order, exactly the ports below the stopping
    point whose [connect_ex] returned 0. *)
Theorem script_announces (protocol : string) (ty : Recon_tool.socket_type)
    (net : Z -> Recon_tool.socket_type -> Recon_tool.connect_outcome) :
  (protocol = "TCP"%string /\ ty = Recon_tool.SOCK_STREAM)
  \/ (protocol = "UDP"%string /\ ty = Recon_tool.SOCK_DGRAM) ->
  exists stop,
    20 <= stop <= 443
    /\ (Tcp_udp_script.script protocol net).1
       = filter (fun p => net p ty = Recon_tool.ConnectCode 0) (Py.range 20 stop)
    /\ (forall p text, 20 <= p < stop ->
         net p ty <> Recon_tool.ConnectRaises text)
    /\ match (Tcp_udp_script.script protocol net).2 with
       | None => stop = 443
       | Some e =>
           stop <= 442
           /\ exists text,
                net stop ty = Recon_tool.ConnectRaises text
                /\ e = Py.OtherException text
       end.
Proof.
  intros Hproto. unfold Tcp_udp_script.script.
  destruct (scan_loop_spec protocol ty net (Py.range 20 443) [] Hproto)
    as (k & Hk & Hfst & Hclean & Hsnd).
  assert (length (Py.range 20 443) = 423%nat) as Hlen by done.
  rewrite Hlen in Hk.
  assert (take k (Py.range 20 443) = Py.range 20 (20 + Z.of_nat k)) as Htake.
  { unfold Py.range.
    replace (443 - 20) with (Z.of_nat k + (423 - Z.of_nat k)) by lia.
    rewrite seqZ_app by lia. rewrite take_app_length'.
    - f_equal. lia.
    - rewrite length_seqZ. lia. }
  rewrite Htake in Hfst, Hclean.
  exists (20 + Z.of_nat k). split; [lia|]. split; [done|]. split.
  - intros p text Hp. apply Hclean. unfold Py.range.
    rewrite elem_of_seqZ. lia.
  - destruct (Tcp_udp_script.scan_loop _ _ _ _).2 as [e|].
    + destruct Hsnd as (q & text & Hq & Hraise & ->).
      unfold Py.range in Hq. apply lookup_seqZ in Hq as [-> Hlt].
      split; [lia|]. by exists text.
    + rewrite Hsnd, Hlen. done.
Qed.

Lemma script_announces_witness :
  ("TCP"%string = "TCP"%string /\ Recon_tool.SOCK_STREAM = Recon_tool.SOCK_STREAM)
  /\ Tcp_udp_script.script "TCP" Samples_sweep.flaky_net
     = ([22; 80],
        Some (Py.OtherException "[Errno -3] Temporary failure in name resolution"))
  /\ exists stop,
       20 <= stop <= 443
       /\ (Tcp_udp_script.script "TCP" Samples_sweep.flaky_net).1
          = filter (fun p => Samples_sweep.flaky_net p Recon_tool.SOCK_STREAM
                             = Recon_tool.ConnectCode 0)
              (Py.range 20 stop).
Proof.
  assert ("TCP"%string = "TCP"%string
          /\ Recon_tool.SOCK_STREAM = Recon_tool.SOCK_STREAM) as H1 by done.
  split; [exact H1|]. split; [vm_compute; reflexivity|].
  destruct (script_announces "TCP" Recon_tool.SOCK_STREAM
              Samples_sweep.flaky_net (or_introl H1))
    as (stop & Hstop & Hfst & _).
  exists stop. split; [exact Hstop|exact Hfst].
Defined.

(** ** The buckets of the engine *)

(** X15. In a run that is not interrupted, the open bucket holds an entry
    exactly for the units whose [connect_ex] returned 0, with their port
    and time; every entry of the closed bucket belongs to a submitted
    unit whose probe did not connect. No port is reported open unless its
    connection succeeded. *)
Theorem buckets_exact (ports : list Z) (max_workers : Z)
    (env : Advanced.run_env) (results : Advanced.buckets) :
  1 <= max_workers ->
  (forall i, Advanced.interrupt env = Some i -> (length ports <= i)%nat) ->
  Advanced.outcome (Advanced.scan_ports_concurrent ports max_workers env)
  = inr results ->
  (forall entry,
     entry ∈ results.1
     <-> exists i p e,
           ports !! i = Some p /\ Advanced.worker env i = Advanced.Ran e
           /\ Advanced.sock e = Advanced.ConnectEx 0
           /\ entry = {| Advanced.o_port := p;
                         Advanced.o_elapsed := Advanced.elapsed e |})
  /\ (forall entry,
       entry ∈ results.2 ->
       exists i p,
         ports !! i = Some p /\ Advanced.c_port entry = p
         /\ forall e, Advanced.worker env i = Advanced.Ran e ->
                      Advanced.sock e <> Advanced.ConnectEx 0).
Proof.
  intros Hk Hint Hrun.
  rewrite scan_uninterrupted in Hrun by done. cbn [Advanced.outcome] in Hrun.
  injection Hrun as <-. cbn [fst snd].
  assert (forall u,
            u ∈ Advanced.as_completed (Advanced.schedule env)
                  (Advanced.submit_all ports env)
            <-> exists i p, ports !! i = Some p
                  /\ u = (p, Advanced.run_future p (Advanced.worker env i)))
    as Hunit.
  { intros u. rewrite as_completed_Permutation, list_elem_of_lookup.
    unfold Advanced.submit_all. split.
    - intros [i Hi]. rewrite list_lookup_imap in Hi.
      destruct (ports !! i) as [p|] eqn:Hp; [|done].
      injection Hi as <-. by exists i, p.
    - intros (i & p & Hp & ->). exists i. by rewrite list_lookup_imap, Hp. }
  split.
  - intros entry. rewrite list_elem_of_bind. split.
    + intros (u & Hentry & (i & p & Hp & ->)%Hunit).
      unfold Advanced.outcome_of_unit, Advanced.run_future,
        Advanced.scan_port in Hentry. cbn [fst snd] in Hentry.
      destruct (Advanced.worker env i) as [e|text] eqn:Hw;
        [|by apply elem_of_nil in Hentry].
      destruct (Advanced.sock e) as [code|text] eqn:Hsock;
        [|by apply elem_of_nil in Hentry].
      destruct (Z.eqb_spec code 0) as [->|Hne];
        [|by apply elem_of_nil in Hentry].
      apply list_elem_of_singleton in Hentry as ->.
      by exists i, p, e.
    + intros (i & p & e & Hp & Hw & Hsock & ->).
      exists (p, Advanced.run_future p (Advanced.worker env i)).
      split; [|apply Hunit; by exists i, p].
      unfold Advanced.outcome_of_unit, Advanced.run_future, Advanced.scan_port.
      cbn [fst snd]. rewrite Hw, Hsock. apply list_elem_of_here.
  - intros entry (u & Hentry & (i & p & Hp & ->)%Hunit)%list_elem_of_bind.
    exists i, p. split; [done|].
    unfold Advanced.outcome_of_unit, Advanced.run_future,
      Advanced.scan_port in Hentry. cbn [fst snd] in Hentry.
    destruct (Advanced.worker env i) as [e|text] eqn:Hw.
    + destruct (Advanced.sock e) as [code|text] eqn:Hsock.
      * destruct (Z.eqb_spec code 0) as [->|Hne];
          [by apply elem_of_nil in Hentry|].
        apply list_elem_of_singleton in Hentry as ->.
        split; [done|]. intros e' [= <-]. rewrite Hsock. congruence.
      * apply list_elem_of_singleton in Hentry as ->.
        split; [done|]. intros e' [= <-]. by rewrite Hsock.
    + apply list_elem_of_singleton in Hentry as ->. by split.
Qed.

Lemma buckets_exact_witness :
  1 <= 4
  /\ (forall i, Advanced.interrupt Samples.lab_run = Some i ->
        (length Samples.lab_ports <= i)%nat)
  /\ exists results,
       Advanced.outcome
         (Advanced.scan_ports_concurrent Samples.lab_ports 4 Samples.lab_run)
       = inr results
       /\ forall entry,
            entry ∈ results.1
            <-> exists i p e,
                  Samples.lab_ports !! i = Some p
                  /\ Advanced.worker Samples.lab_run i = Advanced.Ran e
                  /\ Advanced.sock e = Advanced.ConnectEx 0
                  /\ entry = {| Advanced.o_port := p;
                                Advanced.o_elapsed := Advanced.elapsed e |}.
Proof.
  assert (1 <= 4) as H1 by (vm_compute; discriminate).
  assert (forall i, Advanced.interrupt Samples.lab_run = Some i ->
                    (length Samples.lab_ports <= i)%nat) as H2
    by (intros i Hi; discriminate Hi).
  split; [exact H1|]. split; [exact H2|].
  eexists. split; [vm_compute; reflexivity|].
  refine (proj1 (buckets_exact Samples.lab_ports 4 Samples.lab_run _ H1 H2 _)).
  vm_compute; reflexivity.
Defined.

(** ** The worker prompts of the sweeps *)

(** X16. Whatever is answered to the worker prompt of the two sweeps, the
    pool size lies between 1 and 500: it is 100 for a blank answer and
    for one that [int] refuses, be it no integer literal or one of more
    than 4300 digits, and the answer clamped to 1..500 otherwise. *)
Theorem prompt_max_workers_clamped (line : string) :
  Recon_run.prompt_max_workers line = Network_run.prompt_max_workers line
  /\ 1 <= Recon_run.prompt_max_workers line <= 500
  /\ (Py.int (Py.strip line) = None -> Recon_run.prompt_max_workers line = 100)
  /\ (forall n, Py.int (Py.strip line) = Some n ->
       Recon_run.prompt_max_workers line = Z.max 1 (Z.min 500 n))
  /\ (Py.int_max_str_digits < Py.digit_count line ->
      Recon_run.prompt_max_workers line = 100).
Proof.
  split; [done|]. split; [apply recon_prompt_max_workers_bounds|].
  unfold Recon_run.prompt_max_workers. split; [|split].
  - intros Hnone. destruct (Py.strip line) as [|c s]; [done|].
    cbn [PyMore.or_else]. by rewrite Hnone.
  - intros n Hn. destruct (Py.strip line) as [|c s]; [done|].
    cbn [PyMore.or_else]. by rewrite Hn.
  - intros Hlong. pose proof (int_strip_too_long line Hlong) as Hnone.
    destruct (Py.strip line) as [|c s]; [done|].
    cbn [PyMore.or_else]. by rewrite Hnone.
Qed.

Lemma prompt_max_workers_clamped_witness :
  Py.int (Py.strip "0") = Some 0
  /\ Recon_run.prompt_max_workers "0" = 1
  /\ Py.int (Py.strip "1e3") = None
  /\ Recon_run.prompt_max_workers "1e3" = 100
  /\ Py.int_max_str_digits < Py.digit_count Samples_more.digits_4301
  /\ Recon_run.prompt_max_workers Samples_more.digits_4301 = 100.
Proof.
  assert (Py.int (Py.strip "0") = Some 0) as H1 by reflexivity.
  assert (Py.int (Py.strip "1e3") = None) as H2 by reflexivity.
  assert (Py.int_max_str_digits < Py.digit_count Samples_more.digits_4301)
    as H3 by (vm_compute; reflexivity).
  split; [exact H1|].
  split; [exact (proj1 (proj2 (proj2 (proj2
    (prompt_max_workers_clamped "0")))) 0 H1)|].
  split; [exact H2|].
  split; [exact (proj1 (proj2 (proj2 (prompt_max_workers_clamped "1e3"))) H2)|].
  split; [exact H3|].
  exact (proj2 (proj2 (proj2 (proj2
    (prompt_max_workers_clamped Samples_more.digits_4301)))) H3).
Defined.
